(** * dotbot-brew: the [Brew] plugin of [brew.py]

    A shallow embedding of the plugin's handlers and of the fragments of
    Python's [re], [str.format] and [subprocess] they rely on, followed by
    the properties of the handlers.

    Python strings are modelled as [string]; the three characters the
    plugin inspects (slash, space, newline) are ASCII, so working on bytes
    or on code points gives the same package name. *)

From Stdlib Require Import ZArith String Ascii List Bool Lia.
From stdpp Require Import base gmap strings.
Import ListNotations.

Open Scope string_scope.

(** ** Characters and small string helpers *)

Definition newline : ascii := "010"%char.
Definition slash : ascii := "/"%char.
Definition space : ascii := " "%char.
Definition NUL : ascii := "000"%char.

Definition is_empty (s : string) : bool :=
  match s with
  | EmptyString => true
  | String _ _ => false
  end.

Fixpoint no_newline (s : string) : bool :=
  match s with
  | EmptyString => true
  | String c s' => negb (Ascii.eqb c newline) && no_newline s'
  end.

Fixpoint has_char (a : ascii) (s : string) : bool :=
  match s with
  | EmptyString => false
  | String c s' => Ascii.eqb c a || has_char a s'
  end.

(** ** The fragment of Python's [re] used by [_install] *)

Module Re.

Inductive charset : Type :=
| AnyChar                 (* [.] without DOTALL: anything but a newline *)
| Chr (c : ascii).        (* a literal character *)

Inductive regex : Type :=
| Bol                     (* [^] without MULTILINE *)
| Eol                     (* [$] without MULTILINE *)
| One (cs : charset)
| PlusG (cs : charset)    (* [cs+], greedy *)
| PlusL (cs : charset)    (* [cs+?], lazy *)
| Cat (r1 r2 : regex)
| Opt (r : regex)         (* [(?:r)?], greedy *)
| Grp (r : regex).        (* [(r)], capturing group 1 *)

Definition accepts (cs : charset) (c : ascii) : bool :=
  match cs with
  | AnyChar => negb (Ascii.eqb c newline)
  | Chr a => Ascii.eqb c a
  end.

(** The matcher's position in the subject: the number of characters
    already consumed, the text still ahead, and the span of group 1. *)
Record cursor : Type := Cursor {
  pos : nat;
  rest : string;
  g1 : option (nat * nat)
}.

Record Match : Type := MkMatch {
  m_string : string;
  m_span : nat * nat;
  m_g1 : option (nat * nat)
}.

Section Backtracking.
Context {R : Type}.

(** [cs+] followed by [k]: the longest run is tried first. *)
Fixpoint plus_greedy (cs : charset) (k : cursor -> option R)
    (p : nat) (g : option (nat * nat)) (s : string) : option R :=
  match s with
  | EmptyString => None
  | String c s' =>
      if accepts cs c then
        match plus_greedy cs k (S p) g s' with
        | Some m => Some m
        | None => k (Cursor (S p) s' g)
        end
      else None
  end.

(** [cs+?] followed by [k]: the shortest run is tried first. *)
Fixpoint plus_lazy (cs : charset) (k : cursor -> option R)
    (p : nat) (g : option (nat * nat)) (s : string) : option R :=
  match s with
  | EmptyString => None
  | String c s' =>
      if accepts cs c then
        match k (Cursor (S p) s' g) with
        | Some m => Some m
        | None => plus_lazy cs k (S p) g s'
        end
      else None
  end.

(** Backtracking matcher in continuation-passing style: [run r k c]
    matches [r] at [c] and hands the cursor after it to [k]; when [k]
    fails the next alternative of [r] is tried. *)
Fixpoint run (r : regex) (k : cursor -> option R) (c : cursor) : option R :=
  match r with
  | Bol => if Nat.eqb (pos c) 0 then k c else None
  | Eol =>
      match rest c with
      | EmptyString => k c
      | String a EmptyString => if Ascii.eqb a newline then k c else None
      | String _ _ => None
      end
  | One cs =>
      match rest c with
      | EmptyString => None
      | String a s' =>
          if accepts cs a then k (Cursor (S (pos c)) s' (g1 c)) else None
      end
  | PlusG cs => plus_greedy cs k (pos c) (g1 c) (rest c)
  | PlusL cs => plus_lazy cs k (pos c) (g1 c) (rest c)
  | Cat r1 r2 => run r1 (run r2 k) c
  | Opt r1 =>
      match run r1 k c with
      | Some m => Some m
      | None => k c
      end
  | Grp r1 =>
      run r1 (fun c' => k (Cursor (pos c') (rest c') (Some (pos c, pos c')))) c
  end.
End Backtracking.

(** [re.search]: the leftmost start position at which the pattern
    matches. *)
Definition found (subject : string) (start : nat) (c : cursor)
    : option Match :=
  Some (MkMatch subject (start, pos c) (g1 c)).

Fixpoint search_from (r : regex) (subject : string) (start : nat)
    (s : string) : option Match :=
  match run r (found subject start) (Cursor start s None) with
  | Some m => Some m
  | None =>
      match s with
      | EmptyString => None
      | String _ s' => search_from r subject (S start) s'
      end
  end.

Definition search (r : regex) (subject : string) : option Match :=
  search_from r subject 0 subject.

(** [m[1]]: the text of group 1, or [None] when the group took no part
    in the match. *)
Definition group1 (m : Match) : option string :=
  match m_g1 m with
  | Some (a, b) => Some (substring a (b - a) (m_string m))
  | None => None
  end.

End Re.

(** The pieces of [r"^(?:.+/)?(.+?)(?: .+)?$"]: [.+/], [.+?] and [ .+]. *)
Definition tap_part : Re.regex :=
  Re.Cat (Re.PlusG Re.AnyChar) (Re.One (Re.Chr slash)).
Definition name_part : Re.regex := Re.PlusL Re.AnyChar.
Definition flags_part : Re.regex :=
  Re.Cat (Re.One (Re.Chr space)) (Re.PlusG Re.AnyChar).

Definition pkg_pattern : Re.regex :=
  Re.Cat Re.Bol
    (Re.Cat (Re.Opt tap_part)
      (Re.Cat (Re.Grp name_part)
        (Re.Cat (Re.Opt flags_part) Re.Eol))).

(** The package name [_install] extracts: [re.search(...)[1]]. *)
Definition pkg_name_of (pkg : string) : option string :=
  match Re.search pkg_pattern pkg with
  | Some m => Re.group1 m
  | None => None
  end.

(** ** Python values, exceptions and [str.format] *)

(** The values a YAML configuration can put in an options mapping. *)
Inductive pyval : Type :=
| PyNone
| PyBool (b : bool)
| PyInt (n : Z)
| PyStr (s : string).

(** Truth value testing, as [if v] and [not v] do it. *)
Definition truthy (v : pyval) : bool :=
  match v with
  | PyNone => false
  | PyBool b => b
  | PyInt n => negb (n =? 0)%Z
  | PyStr s => negb (is_empty s)
  end.

Inductive exn : Type :=
| KeyError (key : string)
| IndexError
| ValueError (msg : string)
| OSError (msg : string)
| NotModelled.

Inductive outcome (A : Type) : Type :=
| Return (a : A)
| Raise (e : exn).
Arguments Return {A} a.
Arguments Raise {A} e.

Definition prepend (c : ascii) (r : outcome string) : outcome string :=
  match r with
  | Return s => Return (String c s)
  | Raise e => Raise e
  end.

Fixpoint kwarg (kwargs : list (string * string)) (name : string) : option string :=
  match kwargs with
  | [] => None
  | (k, v) :: kwargs' => if String.eqb k name then Some v else kwarg kwargs' name
  end.

Fixpoint all_digits (s : string) : bool :=
  match s with
  | EmptyString => true
  | String c s' => (Ascii.leb "0" c && Ascii.leb c "9") && all_digits s'
  end.

(** The number a string of decimal digits stands for. *)
Fixpoint digits_value (acc : N) (s : string) : N :=
  match s with
  | EmptyString => acc
  | String c s' =>
      digits_value (10 * acc + (N_of_ascii c - N_of_ascii "0"))%N s'
  end.

Definition PY_SSIZE_T_MAX : N := 9223372036854775807%N.

(** The value a replacement field [{name}] stands for when [format] is
    given keyword arguments only: an empty or numeric name asks for a
    positional argument, which there is none of, and a number beyond
    [PY_SSIZE_T_MAX] is refused before that. *)
Definition field_value (kwargs : list (string * string)) (name : string)
    : outcome string :=
  if all_digits name then
    if (PY_SSIZE_T_MAX <? digits_value 0 name)%N
    then Raise (ValueError "Too many decimal digits in format string")
    else Raise IndexError
  else match kwarg kwargs name with
       | Some v => Return v
       | None => Raise (KeyError name)
       end.

Definition field_delimiter (c : ascii) : bool :=
  Ascii.eqb c "!" || Ascii.eqb c ":" || Ascii.eqb c "." || Ascii.eqb c "[".

(** [template.format(name=value, ...)] with string arguments, for templates
    whose replacement fields are plain names: [{{] and [}}] are the escaped
    braces, [{name}] is replaced by the argument verbatim.  Conversions
    ([!r]), format specifications ([:>8]), attribute and index lookups are
    outside the fragment ([NotModelled]); no template of the plugin uses
    them.  [in_field] holds the characters of the field name read so far. *)
Fixpoint format_from (kwargs : list (string * string))
    (in_field : option string) (s : string) : outcome string :=
  match in_field with
  | None =>
      match s with
      | EmptyString => Return ""
      | String c s' =>
          if Ascii.eqb c "{" then
            match s' with
            | String c2 s'' =>
                if Ascii.eqb c2 "{" then prepend "{" (format_from kwargs None s'')
                else format_from kwargs (Some "") s'
            | EmptyString => Raise (ValueError "Single '{' encountered in format string")
            end
          else if Ascii.eqb c "}" then
            match s' with
            | String c2 s'' =>
                if Ascii.eqb c2 "}" then prepend "}" (format_from kwargs None s'')
                else Raise (ValueError "Single '}' encountered in format string")
            | EmptyString => Raise (ValueError "Single '}' encountered in format string")
            end
          else prepend c (format_from kwargs None s')
      end
  | Some name =>
      match s with
      | EmptyString => Raise (ValueError "expected '}' before end of string")
      | String c s' =>
          if Ascii.eqb c "}" then
            match field_value kwargs name with
            | Return v =>
                match format_from kwargs None s' with
                | Return t => Return (v +:+ t)
                | Raise e => Raise e
                end
            | Raise e => Raise e
            end
          else if Ascii.eqb c "{" then
            Raise (ValueError "unexpected '{' in field name")
          else if field_delimiter c then Raise NotModelled
          else format_from kwargs (Some (name +:+ String c "")) s'
      end
  end.

Definition format (template : string) (kwargs : list (string * string))
    : outcome string :=
  format_from kwargs None template.

(** ** Subprocesses and the log *)

(** What the plugin passes as [stdin=], [stdout=] or [stderr=] to
    [subprocess.call]: the Python value [True], or the file object it
    opened on [os.devnull]. *)
Inductive stream_arg : Type :=
| ArgBool (b : bool)
| ArgFile (path : string).

Definition os_devnull : string := "/dev/null".

(** The arguments of one [subprocess.call]. *)
Record call : Type := Call {
  cmd : string;
  shell : bool;
  cwd : string;
  c_stdin : stream_arg;
  c_stdout : stream_arg;
  c_stderr : stream_arg
}.

(** Where a standard stream of the child ends up. *)
Inductive endpoint : Type :=
| ParentFd (fd : Z)           (* the file open as descriptor [fd] in the parent *)
| OpenFile (path : string).   (* a file opened for the child *)

(** Where [subprocess.call] connects a stream of the child, following
    [subprocess.Popen._get_handles] on POSIX for the two kinds of value
    the plugin passes.  [None] is the value that leaves the child with the
    parent's own stream; the plugin never passes it.  An [int] names a
    file descriptor of the parent, which the child receives on the stream
    in question ([dup2] in the forked child), and [bool] is a subclass of
    [int] with [True == 1], so [True] names descriptor 1, the parent's
    standard output.  Any other value is a file object and stands for its
    [fileno()]. *)
Definition child_endpoint (a : stream_arg) : endpoint :=
  match a with
  | ArgBool b => ParentFd (Z.b2z b)
  | ArgFile path => OpenFile path
  end.

(** The stream a child inherits on descriptor [fd] is the parent's stream
    on that same descriptor; a discarded stream is the null device. *)
Definition inherited (fd : Z) (e : endpoint) : bool :=
  match e with
  | ParentFd n => (n =? fd)%Z
  | OpenFile _ => false
  end.

Definition discarded (e : endpoint) : bool :=
  match e with
  | ParentFd _ => false
  | OpenFile path => String.eqb path os_devnull
  end.

Definition STDIN_FILENO : Z := 0.
Definition STDOUT_FILENO : Z := 1.
Definition STDERR_FILENO : Z := 2.

(** The levels of dotbot's messenger the plugin logs at. *)
Inductive level : Type := Debug | Info | Warning | Error.

(** What a handler does that can be seen from outside: a call of
    [subprocess.call] with its arguments, or a line in the log. *)
Inductive event : Type :=
| Spawn (c : call)
| Log (l : level) (msg : string).

(** The collaborators of the plugin: the operating system and dotbot's
    context, which knows the base directory.  Asked to run a command, the
    operating system runs it to completion and yields its exit status,
    or fails to start it (the base directory is gone, there is no shell,
    no process can be created), which [subprocess.call] reports by
    raising [OSError]. *)
Class Host : Type := {
  World : Type;
  os_run : call -> World -> outcome Z * World;
  base_directory : string
}.

(** ** Effects: exit statuses come from the host, events are recorded *)

(** What running a handler from a given world yields: its value or the
    exception it raised, the world afterwards, and the subprocesses it
    spawned and lines it logged, in order. *)
Record result (W A : Type) : Type := Result {
  value : outcome A;
  final : W;
  events : list event
}.
Arguments Result {W A} value final events.
Arguments value {W A} r.
Arguments final {W A} r.
Arguments events {W A} r.

Section Effects.
Context {H : Host}.

Definition M (A : Type) : Type := World -> result World A.

Definition ret {A : Type} (a : A) : M A := fun w => Result (Return a) w [].

Definition raise {A : Type} (e : exn) : M A := fun w => Result (Raise e) w [].

Definition bind {A B : Type} (m : M A) (f : A -> M B) : M B :=
  fun w =>
    let r := m w in
    match value r with
    | Return a =>
        let r' := f a (final r) in
        Result (value r') (final r') (events r ++ events r')
    | Raise e => Result (Raise e) (final r) (events r)
    end.

Definition lift {A : Type} (o : outcome A) : M A :=
  match o with
  | Return a => ret a
  | Raise e => raise e
  end.

(** [self._log.debug/info/warning/error(msg)] *)
Definition log (l : level) (msg : string) : M unit :=
  fun w => Result (Return tt) w [Log l msg].

(** What [subprocess.call(...)] comes back with.  A command that holds
    a NUL character is refused with [ValueError] before the operating
    system is asked; otherwise the call blocks until the child exits and
    returns its exit status, or raises what the operating system
    reported. *)
Definition call_result (c : call) (w : World) : outcome Z * World :=
  if has_char NUL (cmd c)
  then (Raise (ValueError "embedded null byte"), w)
  else os_run c w.

(** [subprocess.call(...)] *)
Definition subprocess_call (c : call) : M Z :=
  fun w => let (o, w') := call_result c w in Result o w' [Spawn c].

(** [d[key]] on a mapping. *)
Definition getitem (d : gmap string pyval) (key : string) : M pyval :=
  match d !! key with
  | Some v => ret v
  | None => raise (KeyError key)
  end.

(** [for x in xs: body], where [body] may rebind the local [acc]. *)
Fixpoint for_each {A S : Type} (xs : list A) (body : A -> S -> M S) (acc : S)
    : M S :=
  match xs with
  | [] => ret acc
  | x :: xs' => bind (body x acc) (for_each xs' body)
  end.
End Effects.

Notation "'let*' x ':=' m 'in' k" := (bind m (fun x => k))
  (at level 10, x name, m at level 100, k at level 200).

Fixpoint spawns (t : list event) : list call :=
  match t with
  | [] => []
  | Spawn c :: t' => c :: spawns t'
  | Log _ _ :: t' => spawns t'
  end.

Fixpoint logged (l : level) (t : list event) : list string :=
  match t with
  | [] => []
  | Spawn _ :: t' => logged l t'
  | Log l' msg :: t' =>
      match l, l' with
      | Debug, Debug | Info, Info | Warning, Warning | Error, Error =>
          msg :: logged l t'
      | _, _ => logged l t'
      end
  end.

(** ** The plugin *)

Definition dquote : ascii := "034"%char.

Section Brew.
Context {H : Host}.

(** [self._defaults], set up by [__init__]. *)
Definition switches (stdin stderr stdout : bool) : gmap string pyval :=
  {[ "stdin" := PyBool stdin; "stderr" := PyBool stderr;
     "stdout" := PyBool stdout ]}.

Definition _defaults : gmap string (gmap string pyval) :=
  {[ "brew" := switches false false false;
     "cask" := switches false false false;
     "brewfile" := switches true true true;
     "install-brew" := switches true true true;
     "tap" := switches false false false ]}.

Definition directives : list string :=
  ["install-brew"; "brew"; "cask"; "tap"; "brewfile"].

Definition can_handle (directive : string) : bool :=
  existsb (String.eqb directive) directives.

(** The options [handle] passes to a directive's handler:
    [{**local_defaults, **user_defaults}], where [context_defaults] is
    [self._context.defaults()]. *)
Definition handle_defaults (context_defaults : gmap string (gmap string pyval))
    (directive : string) : gmap string pyval :=
  let user_defaults := default ∅ (context_defaults !! directive) in
  let local_defaults := default ∅ (_defaults !! directive) in
  user_defaults ∪ local_defaults.

Definition _invoke_shell_command (cmd : string)
    (defaults : gmap string pyval) : M Z :=
  let devnull := ArgFile os_devnull in
  let* stdin := getitem defaults "stdin" in
  let* stdout := getitem defaults "stdout" in
  let* stderr := getitem defaults "stderr" in
  subprocess_call
    {| cmd := cmd;
       shell := true;
       cwd := base_directory;
       c_stdin := if truthy stdin then ArgBool true else devnull;
       c_stdout := if truthy stdout then ArgBool true else devnull;
       c_stderr := if truthy stderr then ArgBool true else devnull |}.

Definition _tap (tap_list : list string) (defaults : gmap string pyval)
    : M bool :=
  for_each tap_list
    (fun tap result =>
       let* _ := log Info ("Tapping " +:+ tap) in
       let cmd := "brew tap " +:+ tap in
       let* cmd_result := _invoke_shell_command cmd defaults in
       if negb (cmd_result =? 0)%Z then
         let* _ := log Warning ("Failed to tap [" +:+ tap +:+ "]") in
         ret false
       else ret result)
    true.

(** [str(m[1])] as [format] renders it. *)
Definition group_text (m : Re.Match) : string :=
  match Re.group1 m with
  | Some s => s
  | None => "None"
  end.

(** The already-installed check of [_install]: always on the null
    device. *)
Definition check_call (check_cmd : string) : call :=
  let devnull := ArgFile os_devnull in
  {| cmd := check_cmd;
     shell := true;
     cwd := base_directory;
     c_stdin := devnull;
     c_stdout := devnull;
     c_stderr := devnull |}.

Definition _install (install_format check_installed_format pkg : string)
    (defaults : gmap string pyval) : M bool :=
  if is_empty pkg then
    let* _ := log Error "Cannot process blank package name" in
    ret false
  else
    match Re.search pkg_pattern pkg with
    | None =>
        let* _ := log Error
          ("Package name " +:+ pkg +:+ " doesn't work for some reason") in
        ret false
    | Some pkg_parse =>
        let pkg_name := group_text pkg_parse in
        let* check_cmd :=
          lift (format check_installed_format [("pkg_name", pkg_name)]) in
        let* isInstalled := subprocess_call (check_call check_cmd) in
        if (isInstalled =? 0)%Z then
          let* _ := log Debug (pkg +:+ " already installed") in
          ret true
        else
          let* _ := log Info ("Installing " +:+ pkg) in
          let* install_cmd := lift (format install_format [("pkg", pkg)]) in
          let* result := _invoke_shell_command install_cmd defaults in
          let* _ :=
            if negb (0 =? result)%Z
            then log Warning "Failed to install [{pkg}]"
            else ret tt in
          ret (0 =? result)%Z
    end.

Definition brew_install_format : string :=
  "/opt/homebrew/bin/brew install {pkg}".
Definition brew_check_format : string :=
  "test -d /opt/homebrew/Cellar/{pkg_name} "
  +:+ "|| /opt/homebrew/bin/brew ls --versions {pkg_name}".

Definition _brew (packages : list string) (defaults : gmap string pyval)
    : M bool :=
  let* result :=
    for_each packages
      (fun pkg result =>
         let* run :=
           _install brew_install_format brew_check_format pkg defaults in
         if negb run then
           let* _ := log Error "Some packages were not installed" in
           ret false
         else ret result)
      true in
  let* _ :=
    if result then log Info "All brew packages have been installed"
    else ret tt in
  ret result.

Definition cask_install_format : string :=
  "/opt/homebrew/bin/brew install --cask {pkg}".
Definition cask_check_format : string :=
  "test -d /opt/homebrew/Caskroom/{pkg_name} "
  +:+ "|| /opt/homebrew/bin/brew ls --cask --versions {pkg_name}".

Definition _cask (packages : list string) (defaults : gmap string pyval)
    : M bool :=
  let* result :=
    for_each packages
      (fun pkg result =>
         let* run :=
           _install cask_install_format cask_check_format pkg defaults in
         if negb run then
           let* _ := log Error "Some packages were not installed" in
           ret false
         else ret result)
      true in
  let* _ :=
    if result then log Info "All cask packages have been installed"
    else ret tt in
  ret result.

Definition _brewfile (brew_files : list string)
    (defaults : gmap string pyval) : M bool :=
  for_each brew_files
    (fun file result =>
       let* _ := log Info ("Installing from file " +:+ file) in
       let cmd := "/opt/homebrew/bin/brew bundle --verbose --file=" +:+ file in
       let* code := _invoke_shell_command cmd defaults in
       if negb (0 =? code)%Z then
         let* _ := log Warning ("Failed to install file [" +:+ file +:+ "]") in
         ret false
       else ret result)
    true.

Definition install_brew_cmd : string :=
  let link :=
    "https://raw.githubusercontent.com/Homebrew/install/HEAD/install.sh" in
  "/bin/bash -c " +:+ String dquote ("$(curl -fsSL " +:+ link +:+ ")")
  +:+ String dquote "".

Definition _install_brew (val : pyval) (defaults : gmap string pyval)
    : M bool :=
  if negb (truthy val) then
    let* _ := log Error
      "Why would you even put `install-brew: false` in there?" in
    ret false
  else
    _install install_brew_cmd "command -v /opt/homebrew/bin/brew" "brew"
      defaults.
End Brew.

(** ** Specification-level definitions *)

(** The name of a target, read off the pattern.  A tap prefix ends at a
    slash that has at least one character on either side; flags start at
    a space that is not the first character of the name and has at least
    one character after it. *)

(** [cut_flags t]: the characters of the name after its first one, [t]
    being the text after that first character. *)
Fixpoint cut_flags (t : string) : string :=
  match t with
  | EmptyString => EmptyString
  | String c t' =>
      if Ascii.eqb c space && negb (is_empty t') then EmptyString
      else String c (cut_flags t')
  end.

Definition before_flags (r : string) : string :=
  match r with
  | EmptyString => EmptyString
  | String c t => String c (cut_flags t)
  end.

(** [tail_after_slash t]: the text after the last slash of [t] that is
    not the last character of [t]. *)
Fixpoint tail_after_slash (t : string) : option string :=
  match t with
  | EmptyString => None
  | String c t' =>
      match tail_after_slash t' with
      | Some r => Some r
      | None => if Ascii.eqb c slash && negb (is_empty t') then Some t' else None
      end
  end.

Definition after_tap (s : string) : string :=
  match s with
  | EmptyString => EmptyString
  | String c t =>
      match tail_after_slash t with
      | Some r => r
      | None => s
      end
  end.

(** Whether [t], the text after a candidate name, is nothing or a flags
    suffix. *)
Definition flags_or_end (t : string) : bool :=
  match t with
  | EmptyString => true
  | String c u => Ascii.eqb c space && negb (is_empty u)
  end.

Definition canonical_name (s : string) : string :=
  before_flags (after_tap s).

(** The name as the words "the text after the last slash, up to the first
    following space" give it. *)
Fixpoint after_last_slash (s : string) : string :=
  match s with
  | EmptyString => EmptyString
  | String c s' =>
      if has_char slash s' then after_last_slash s'
      else if Ascii.eqb c slash then s' else s
  end.

Fixpoint up_to_space (s : string) : string :=
  match s with
  | EmptyString => EmptyString
  | String c s' => if Ascii.eqb c space then EmptyString else String c (up_to_space s')
  end.

Definition name_as_worded (s : string) : string :=
  up_to_space (after_last_slash s).

(** An options mapping that has the three switches. *)
Definition complete (defaults : gmap string pyval) : Prop :=
  is_Some (defaults !! "stdin") /\ is_Some (defaults !! "stdout")
  /\ is_Some (defaults !! "stderr").

(** The stream argument a switch selects. *)
Definition stream_for (switch : option pyval) : stream_arg :=
  match switch with
  | Some v => if truthy v then ArgBool true else ArgFile os_devnull
  | None => ArgFile os_devnull
  end.

Section Batches.
Context {H : Host}.

(** The call [_invoke_shell_command] makes for [cmd]. *)
Definition shell_call (defaults : gmap string pyval) (cmd : string) : call :=
  {| cmd := cmd;
     shell := true;
     cwd := base_directory;
     c_stdin := stream_for (defaults !! "stdin");
     c_stdout := stream_for (defaults !! "stdout");
     c_stderr := stream_for (defaults !! "stderr") |}.


(** [installIfAbsent] on each target in list order, whatever the
    earlier ones returned, up to the first one that raises; the
    per-target results are collected. *)
Fixpoint install_each (install_format check_format : string)
    (targets : list string) (defaults : gmap string pyval) : M (list bool) :=
  match targets with
  | [] => ret []
  | pkg :: targets' =>
      let* r := _install install_format check_format pkg defaults in
      let* rs := install_each install_format check_format targets' defaults in
      ret (r :: rs)
  end.
End Batches.


(** A host for examples: the world counts the commands run so far, and
    a command fails exactly when its text mentions [missing]. *)
Fixpoint mentions (needle s : string) : bool :=
  String.prefix needle s
  || match s with
     | EmptyString => false
     | String _ s' => mentions needle s'
     end.

Definition example_host : Host :=
  {| World := nat;
     os_run := fun c n =>
       (Return (if mentions "missing" (cmd c) then 1%Z else 0%Z), S n);
     base_directory := "/home/me/dotfiles" |}.

(** Whether a slash comes somewhere after a space. *)
Fixpoint slash_after_space (s : string) : bool :=
  match s with
  | EmptyString => false
  | String c s' =>
      if Ascii.eqb c space then has_char slash s' else slash_after_space s'
  end.

(** Inputs for the examples. *)
Definition nul_target : string := String "a" (String NUL "b").

Definition brew_defaults : gmap string pyval := handle_defaults ∅ "brew".

Definition pkg_check : string :=
  "test -d /opt/homebrew/Cellar/pkg || /opt/homebrew/bin/brew ls --versions pkg".

Definition missing_check : string :=
  "test -d /opt/homebrew/Cellar/missing "
  +:+ "|| /opt/homebrew/bin/brew ls --versions missing".

(** ** Dispatch *)

(** The data of a directive, as the handlers' annotations type it: the
    toggle of [install-brew] or the list of strings of the other
    directives. *)
Inductive pydata : Type :=
| Toggle (val : pyval)
| Items (items : list string).

Section Dispatch.
Context {H : Host}.

(** A handler applied to data of the shape it is annotated with.  On
    data of the other shape Python raises [TypeError] (a toggle that is
    not iterable), iterates the characters of a string, or goes by the
    truth value of the list; the model leaves that out ([NotModelled]). *)
Definition on_toggle (handler : pyval -> gmap string pyval -> M bool)
    (data : pydata) (defaults : gmap string pyval) : M bool :=
  match data with
  | Toggle val => handler val defaults
  | Items _ => raise NotModelled
  end.

Definition on_items (handler : list string -> gmap string pyval -> M bool)
    (data : pydata) (defaults : gmap string pyval) : M bool :=
  match data with
  | Items items => handler items defaults
  | Toggle _ => raise NotModelled
  end.

(** [self._directives], set up by [__init__]. *)
Definition _directives
    : gmap string (pydata -> gmap string pyval -> M bool) :=
  {[ "install-brew" := on_toggle _install_brew;
     "brew" := on_items _brew;
     "cask" := on_items _cask;
     "tap" := on_items _tap;
     "brewfile" := on_items _brewfile ]}.

(** [handle]: merge the options, then [self._directives[directive]]
    applied to the data and the merged options. *)
Definition handle (context_defaults : gmap string (gmap string pyval))
    (directive : string) (data : pydata) : M bool :=
  let defaults := handle_defaults context_defaults directive in
  match _directives !! directive with
  | Some handler => handler data defaults
  | None => raise (KeyError directive)
  end.
End Dispatch.



(** ** More specification-level definitions *)

(** A text that [.], [/] and [ ] can cover up to where [$] matches: no
    newline, except possibly as the last character. *)
Fixpoint single_line (s : string) : bool :=
  match s with
  | EmptyString => true
  | String c s' =>
      match s' with
      | EmptyString => true
      | String _ _ => negb (Ascii.eqb c newline) && single_line s'
      end
  end.

(** Patterns whose character sets leave the newline out. *)
Definition newline_free_set (cs : Re.charset) : bool :=
  negb (Re.accepts cs newline).

Fixpoint newline_free (r : Re.regex) : bool :=
  match r with
  | Re.Bol | Re.Eol => true
  | Re.One cs | Re.PlusG cs | Re.PlusL cs => newline_free_set cs
  | Re.Cat r1 r2 => newline_free r1 && newline_free r2
  | Re.Opt r1 | Re.Grp r1 => newline_free r1
  end.

(** The commands [_brew] and [_cask] build for a target. *)
Definition brew_check_of (pkg : string) : string :=
  "test -d /opt/homebrew/Cellar/" +:+ canonical_name pkg
  +:+ " || /opt/homebrew/bin/brew ls --versions " +:+ canonical_name pkg.

Definition cask_check_of (pkg : string) : string :=
  "test -d /opt/homebrew/Caskroom/" +:+ canonical_name pkg
  +:+ " || /opt/homebrew/bin/brew ls --cask --versions " +:+ canonical_name pkg.

(** A host on which Homebrew is not installed yet: [command -v] fails,
    every other command succeeds. *)
Definition fresh_host : Host :=
  {| World := nat;
     os_run := fun c n =>
       (Return (if mentions "command -v" (cmd c) then 1%Z else 0%Z), S n);
     base_directory := "/home/me/dotfiles" |}.

(** The value [__init__] gives to each of the three switches of a
    directive: [True] for [brewfile] and [install-brew], [False] for
    [brew], [cask] and [tap]. *)
Definition builtin_switch (directive : string) : bool :=
  String.eqb directive "brewfile" || String.eqb directive "install-brew".

Definition switch_names : list string := ["stdin"; "stdout"; "stderr"].

Definition brew_present_check : string := "command -v /opt/homebrew/bin/brew".

(** What [$] lets stand after the match: nothing, or one newline. *)
Definition is_eol_tail (tl : string) : bool :=
  match tl with
  | EmptyString => true
  | String c EmptyString => Ascii.eqb c newline
  | String _ (String _ _) => false
  end.

(** [s] without its final newline, if it ends in one. *)
Fixpoint chomp (s : string) : string :=
  match s with
  | EmptyString => EmptyString
  | String c s' =>
      match s' with
      | EmptyString => if Ascii.eqb c newline then EmptyString else s
      | String _ _ => String c (chomp s')
      end
  end.

(** A continuation that fails wherever a newline lies ahead of the last
    character. *)
Definition rejects_multiline {R : Type} (k : Re.cursor -> option R) : Prop :=
  forall c, single_line (Re.rest c) = false -> k c = None.

(** * Properties *)

(** ** Strings *)

#[local] Arguments String.append !_ _ / : simpl nomatch.

Lemma append_empty_r (s : string) : s +:+ "" = s.
Proof. induction s as [|c s IH]; simpl; [reflexivity | now rewrite IH]. Qed.

Lemma append_String_assoc (s1 s2 s3 : string) :
  (s1 +:+ s2) +:+ s3 = s1 +:+ (s2 +:+ s3).
Proof. induction s1 as [|c s1 IH]; simpl; [reflexivity | now rewrite IH]. Qed.

Lemma length_append (s1 s2 : string) :
  String.length (s1 +:+ s2) = String.length s1 + String.length s2.
Proof. induction s1 as [|c s1 IH]; simpl; [reflexivity | now rewrite IH]. Qed.

Lemma substring_skip (pre r : string) (n : nat) :
  substring (String.length pre) n (pre +:+ r) = substring 0 n r.
Proof. induction pre as [|c pre IH]; simpl; [reflexivity | exact IH]. Qed.

Lemma substring_prefix (x y : string) :
  substring 0 (String.length x) (x +:+ y) = x.
Proof.
  induction x as [|c x IH]; simpl.
  - destruct y; reflexivity.
  - now rewrite IH.
Qed.

Lemma is_empty_false_inv (s : string) :
  is_empty s = false -> exists c t, s = String c t.
Proof. destruct s as [|c t]; [discriminate | eauto]. Qed.

Lemma no_newline_String (c : ascii) (t : string) :
  no_newline (String c t) = true ->
  Ascii.eqb c newline = false /\ no_newline t = true.
Proof.
  simpl. intros Hn. apply andb_true_iff in Hn as [Hc Ht].
  apply negb_true_iff in Hc. now split.
Qed.

(** ** The name-extraction pattern *)

Lemma cut_flags_prefix (t : string) : exists x, t = cut_flags t +:+ x.
Proof.
  induction t as [|c t [x IH]]; simpl.
  - now exists "".
  - destruct (Ascii.eqb c space && negb (is_empty t)).
    + now exists (String c t).
    + exists x. simpl. now rewrite <- IH.
Qed.

Lemma before_flags_prefix (r : string) : exists x, r = before_flags r +:+ x.
Proof.
  destruct r as [|c t]; simpl.
  - now exists "".
  - destruct (cut_flags_prefix t) as [x Hx]. exists x. now rewrite <- Hx.
Qed.

Lemma tail_after_slash_suffix (t r : string) :
  tail_after_slash t = Some r ->
  is_empty r = false /\ exists pre, t = pre +:+ String slash r.
Proof.
  revert r. induction t as [|c t IH]; simpl; intros r Hr; [discriminate|].
  destruct (tail_after_slash t) as [r'|] eqn:E.
  - injection Hr as <-. destruct (IH r' eq_refl) as [Hne [pre Hpre]].
    split; [exact Hne|]. exists (String c pre). simpl. now rewrite <- Hpre.
  - destruct (Ascii.eqb c slash) eqn:Ec; simpl in Hr; [|discriminate].
    destruct (is_empty t) eqn:Et; simpl in Hr; [discriminate|].
    injection Hr as <-. split; [exact Et|].
    apply Ascii.eqb_eq in Ec. subst c. now exists "".
Qed.

(** The equations of the matcher, one per construct. *)
Section RunEquations.
Context {R : Type}.
Variables (k : Re.cursor -> option R) (c : Re.cursor).

Lemma run_Bol :
  Re.run Re.Bol k c = if Nat.eqb (Re.pos c) 0 then k c else None.
Proof. reflexivity. Qed.

Lemma run_Cat (r1 r2 : Re.regex) :
  Re.run (Re.Cat r1 r2) k c = Re.run r1 (Re.run r2 k) c.
Proof. reflexivity. Qed.

Lemma run_Opt (r : Re.regex) :
  Re.run (Re.Opt r) k c
  = match Re.run r k c with Some m => Some m | None => k c end.
Proof. reflexivity. Qed.

Lemma run_Grp (r : Re.regex) :
  Re.run (Re.Grp r) k c
  = Re.run r
      (fun c' => k (Re.Cursor (Re.pos c') (Re.rest c')
                      (Some (Re.pos c, Re.pos c')))) c.
Proof. reflexivity. Qed.

Lemma run_PlusG (cs : Re.charset) :
  Re.run (Re.PlusG cs) k c
  = Re.plus_greedy cs k (Re.pos c) (Re.g1 c) (Re.rest c).
Proof. reflexivity. Qed.

Lemma run_PlusL (cs : Re.charset) :
  Re.run (Re.PlusL cs) k c
  = Re.plus_lazy cs k (Re.pos c) (Re.g1 c) (Re.rest c).
Proof. reflexivity. Qed.
End RunEquations.

Lemma run_One_nil {R : Type} (k : Re.cursor -> option R) (cs : Re.charset)
    (p : nat) (g : option (nat * nat)) :
  Re.run (Re.One cs) k (Re.Cursor p "" g) = None.
Proof. reflexivity. Qed.

Lemma run_One_String {R : Type} (k : Re.cursor -> option R) (cs : Re.charset)
    (p : nat) (g : option (nat * nat)) (a : ascii) (s : string) :
  Re.run (Re.One cs) k (Re.Cursor p (String a s) g)
  = if Re.accepts cs a then k (Re.Cursor (S p) s g) else None.
Proof. reflexivity. Qed.

Lemma run_Eol_nil {R : Type} (k : Re.cursor -> option R)
    (p : nat) (g : option (nat * nat)) :
  Re.run Re.Eol k (Re.Cursor p "" g) = k (Re.Cursor p "" g).
Proof. reflexivity. Qed.

Lemma run_Eol_String {R : Type} (k : Re.cursor -> option R)
    (p : nat) (g : option (nat * nat)) (a : ascii) (s : string) :
  Ascii.eqb a newline = false ->
  Re.run Re.Eol k (Re.Cursor p (String a s) g) = None.
Proof. intros Ha. cbn. rewrite Ha. now destruct s. Qed.

Lemma plus_lazy_String {R : Type} (k : Re.cursor -> option R)
    (cs : Re.charset) (p : nat) (g : option (nat * nat)) (a : ascii)
    (s : string) :
  Re.plus_lazy cs k p g (String a s)
  = if Re.accepts cs a then
      match k (Re.Cursor (S p) s g) with
      | Some m => Some m
      | None => Re.plus_lazy cs k (S p) g s
      end
    else None.
Proof. reflexivity. Qed.

Lemma plus_greedy_String {R : Type} (k : Re.cursor -> option R)
    (cs : Re.charset) (p : nat) (g : option (nat * nat)) (a : ascii)
    (s : string) :
  Re.plus_greedy cs k p g (String a s)
  = if Re.accepts cs a then
      match Re.plus_greedy cs k (S p) g s with
      | Some m => Some m
      | None => k (Re.Cursor (S p) s g)
      end
    else None.
Proof. reflexivity. Qed.

Lemma accepts_AnyChar (a : ascii) :
  Ascii.eqb a newline = false -> Re.accepts Re.AnyChar a = true.
Proof. intros Ha. cbn. now rewrite Ha. Qed.

Lemma match_end_eq (subject : string) (a b b' : nat) (g : option (nat * nat)) :
  b = b' ->
  Some (Re.MkMatch subject (a, b) g) = Some (Re.MkMatch subject (a, b') g).
Proof. now intros ->. Qed.

Lemma match_group_eq (subject : string) (a b b' x x' y y' : nat) :
  b = b' -> x = x' -> y = y' ->
  Some (Re.MkMatch subject (a, b) (Some (x, y)))
  = Some (Re.MkMatch subject (a, b') (Some (x', y'))).
Proof. now intros -> -> ->. Qed.

Ltac same_match :=
  cbn [String.length];
  first [ apply match_end_eq; lia | apply match_group_eq; lia ].

Section PatternFacts.
Variables (subject : string) (start : nat).

(** A greedy [.+] runs to the end of the text when what follows the
    [+] accepts there. *)
Lemma greedy_to_end (k : Re.cursor -> option Re.Match) (m : Re.Match)
    (s : string) (p : nat) (g : option (nat * nat)) :
  is_empty s = false -> no_newline s = true ->
  k (Re.Cursor (p + String.length s) "" g) = Some m ->
  Re.plus_greedy Re.AnyChar k p g s = Some m.
Proof.
  revert p. induction s as [|c s IH]; intros p Hne Hnl Hk; [discriminate|].
  apply no_newline_String in Hnl as [Hc Hs].
  rewrite plus_greedy_String, (accepts_AnyChar _ Hc).
  destruct s as [|c' s'].
  - cbn [Re.plus_greedy]. rewrite <- Hk. do 2 f_equal. cbn. lia.
  - rewrite (IH (S p) eq_refl Hs); [reflexivity|].
    rewrite <- Hk. do 2 f_equal. cbn [String.length]. lia.
Qed.

(** [(?: .+)?$] succeeds exactly on the empty text and on a space
    followed by something. *)
Lemma flags_tail (t : string) (p : nat) (g : option (nat * nat)) :
  no_newline t = true ->
  Re.run (Re.Cat (Re.Opt flags_part) Re.Eol) (Re.found subject start)
    (Re.Cursor p t g)
  = if flags_or_end t
    then Some (Re.MkMatch subject (start, p + String.length t) g)
    else None.
Proof.
  intros Hnl. rewrite run_Cat, run_Opt. unfold flags_part.
  rewrite run_Cat. destruct t as [|c u].
  - rewrite run_One_nil, run_Eol_nil. unfold Re.found.
    cbn [flags_or_end Re.pos Re.g1]. same_match.
  - apply no_newline_String in Hnl as [Hc Hu].
    rewrite run_One_String, (run_Eol_String _ _ _ _ _ Hc).
    cbn [Re.accepts flags_or_end].
    destruct (Ascii.eqb c space) eqn:Esp; [|reflexivity].
    rewrite run_PlusG. cbn [Re.pos Re.rest Re.g1 andb].
    destruct u as [|c' u']; [reflexivity|].
    cbn [is_empty negb].
    erewrite greedy_to_end; [reflexivity | reflexivity | exact Hu |].
    rewrite run_Eol_nil. unfold Re.found. cbn [Re.pos Re.g1]. same_match.
Qed.

(** The lazy [(.+?)] stops at the first place the rest of the pattern
    accepts. *)
Lemma name_lazy (t : string) (c : ascii) (p a : nat) (g : option (nat * nat)) :
  Ascii.eqb c newline = false -> no_newline t = true ->
  Re.plus_lazy Re.AnyChar
    (fun c' =>
       Re.run (Re.Cat (Re.Opt flags_part) Re.Eol) (Re.found subject start)
         (Re.Cursor (Re.pos c') (Re.rest c') (Some (a, Re.pos c'))))
    p g (String c t)
  = Some (Re.MkMatch subject (start, S p + String.length t)
            (Some (a, S p + String.length (cut_flags t)))).
Proof.
  revert c p. induction t as [|c' t IH]; intros c p Hc Hnl.
  - rewrite plus_lazy_String, (accepts_AnyChar _ Hc). cbn [Re.pos Re.rest].
    rewrite (flags_tail _ _ _ Hnl). cbn [flags_or_end cut_flags]. same_match.
  - rewrite plus_lazy_String, (accepts_AnyChar _ Hc). cbn [Re.pos Re.rest].
    rewrite (flags_tail _ _ _ Hnl).
    cbn [flags_or_end cut_flags].
    destruct (Ascii.eqb c' space && negb (is_empty t)) eqn:E.
    + same_match.
    + apply no_newline_String in Hnl as [Hc' Ht].
      rewrite (IH c' (S p) Hc' Ht). same_match.
Qed.

(** After the tap prefix, [(.+?)(?: .+)?$] matches every non-empty
    text and captures its part before the flags. *)
Lemma name_and_flags (r : string) (p : nat) (g : option (nat * nat)) :
  no_newline r = true ->
  Re.run (Re.Cat (Re.Grp name_part) (Re.Cat (Re.Opt flags_part) Re.Eol))
    (Re.found subject start) (Re.Cursor p r g)
  = if is_empty r then None
    else Some (Re.MkMatch subject (start, p + String.length r)
                 (Some (p, p + String.length (before_flags r)))).
Proof.
  intros Hnl. rewrite run_Cat, run_Grp. unfold name_part. rewrite run_PlusL.
  cbn [Re.pos Re.rest Re.g1].
  destruct r as [|c t]; [reflexivity|].
  apply no_newline_String in Hnl as [Hc Ht].
  rewrite (name_lazy t c p p g Hc Ht).
  cbn [before_flags is_empty]. same_match.
Qed.

(** The greedy [.+/] gives back characters until it stands after the
    last slash that still leaves a name to match. *)
Lemma tap_greedy (t : string) (c : ascii) (p : nat) (g : option (nat * nat)) :
  Ascii.eqb c newline = false -> no_newline t = true ->
  Re.plus_greedy Re.AnyChar
    (Re.run (Re.One (Re.Chr slash))
       (Re.run (Re.Cat (Re.Grp name_part) (Re.Cat (Re.Opt flags_part) Re.Eol))
          (Re.found subject start)))
    p g (String c t)
  = match tail_after_slash t with
    | Some r =>
        let q := S p + String.length t - String.length r in
        Some (Re.MkMatch subject (start, S p + String.length t)
                (Some (q, q + String.length (before_flags r))))
    | None => None
    end.
Proof.
  revert c p. induction t as [|c' t IH]; intros c p Hc Hnl.
  - rewrite plus_greedy_String, (accepts_AnyChar _ Hc).
    cbn [Re.plus_greedy]. now rewrite run_One_nil.
  - rewrite plus_greedy_String, (accepts_AnyChar _ Hc).
    pose proof Hnl as Hnl'. apply no_newline_String in Hnl' as [Hc' Ht].
    rewrite (IH c' (S p) Hc' Ht). cbn [tail_after_slash].
    destruct (tail_after_slash t) as [r|] eqn:E.
    + cbv zeta. same_match.
    + rewrite run_One_String. cbn [Re.accepts].
      destruct (Ascii.eqb c' slash); [|reflexivity].
      rewrite (name_and_flags _ _ _ Ht). cbn [andb].
      destruct (is_empty t); [reflexivity|].
      cbn [negb]. cbv zeta. same_match.
Qed.
End PatternFacts.

Lemma tail_after_slash_length (t r : string) :
  tail_after_slash t = Some r ->
  exists pre, t = pre +:+ String slash r
              /\ String.length t = String.length pre + 1 + String.length r.
Proof.
  intros Hr. destruct (tail_after_slash_suffix t r Hr) as [_ [pre Hpre]].
  exists pre. split; [exact Hpre|].
  rewrite Hpre, length_append. cbn [String.length]. lia.
Qed.

(** On a non-empty target without a newline the search succeeds at the
    start of the target, spans all of it, and group 1 is the canonical
    name. *)
Lemma search_pkg_pattern (s : string) :
  is_empty s = false -> no_newline s = true ->
  exists q,
    Re.search pkg_pattern s
    = Some (Re.MkMatch s (0, String.length s)
              (Some (q, q + String.length (canonical_name s))))
    /\ substring q (String.length (canonical_name s)) s = canonical_name s.
Proof.
  intros Hne Hnl. destruct s as [|c t]; [discriminate|].
  pose proof Hnl as Hnl'. apply no_newline_String in Hnl' as [Hc Ht].
  unfold Re.search. cbn [Re.search_from]. unfold pkg_pattern.
  rewrite run_Cat, run_Bol. cbn [Re.pos Nat.eqb].
  rewrite run_Cat, run_Opt. unfold tap_part at 1.
  rewrite run_Cat, run_PlusG. cbn [Re.pos Re.rest Re.g1].
  rewrite (tap_greedy _ _ t c 0 None Hc Ht).
  unfold canonical_name, after_tap.
  destruct (tail_after_slash t) as [r|] eqn:E.
  - destruct (tail_after_slash_length t r E) as [pre [Hpre Hlen]].
    exists (String.length (String c pre +:+ String slash "")). split.
    + cbv zeta. rewrite length_append. same_match.
    + replace (String c t)
        with ((String c pre +:+ String slash "") +:+ r).
      * rewrite substring_skip.
        destruct (before_flags_prefix r) as [x Hx].
        rewrite Hx at 2. apply substring_prefix.
      * rewrite Hpre, append_String_assoc. reflexivity.
  - exists 0. split.
    + rewrite (name_and_flags _ _ _ _ _ Hnl). cbn [is_empty]. same_match.
    + destruct (before_flags_prefix (String c t)) as [x Hx].
      rewrite Hx at 2. apply substring_prefix.
Qed.

Lemma pkg_name_of_canonical (s : string) :
  is_empty s = false -> no_newline s = true ->
  pkg_name_of s = Some (canonical_name s).
Proof.
  intros Hne Hnl. destruct (search_pkg_pattern s Hne Hnl) as [q [Hs Hsub]].
  unfold pkg_name_of. rewrite Hs. unfold Re.group1. cbn [Re.m_g1 Re.m_string].
  replace (q + String.length (canonical_name s) - q)
    with (String.length (canonical_name s)) by lia.
  now rewrite Hsub.
Qed.

(** ** Targets the pattern refuses *)

Lemma single_line_tail (a : ascii) (s : string) :
  single_line (String a s) = false -> Ascii.eqb a newline = false ->
  single_line s = false.
Proof.
  intros Hs Ha. destruct s as [|c s']; [discriminate|].
  cbn [single_line] in Hs. rewrite Ha in Hs. exact Hs.
Qed.

Lemma accepts_not_newline (cs : Re.charset) (a : ascii) :
  newline_free_set cs = true -> Re.accepts cs a = true ->
  Ascii.eqb a newline = false.
Proof.
  unfold newline_free_set. destruct cs as [|c]; cbn; intros Hcs Ha.
  - now apply negb_true_iff in Ha.
  - apply Ascii.eqb_eq in Ha. subst a. apply negb_true_iff in Hcs.
    now rewrite Ascii.eqb_sym.
Qed.

Section Multiline.
Context {R : Type}.

Lemma plus_greedy_rejects (cs : Re.charset) (k : Re.cursor -> option R) :
  newline_free_set cs = true -> rejects_multiline k ->
  forall s p g, single_line s = false -> Re.plus_greedy cs k p g s = None.
Proof.
  intros Hcs Hk. induction s as [|a s IH]; intros p g Hs; [reflexivity|].
  rewrite plus_greedy_String. destruct (Re.accepts cs a) eqn:Ha; [|reflexivity].
  pose proof (single_line_tail a s Hs (accepts_not_newline cs a Hcs Ha)) as Hs'.
  rewrite (IH (S p) g Hs'). now apply Hk.
Qed.

Lemma plus_lazy_rejects (cs : Re.charset) (k : Re.cursor -> option R) :
  newline_free_set cs = true -> rejects_multiline k ->
  forall s p g, single_line s = false -> Re.plus_lazy cs k p g s = None.
Proof.
  intros Hcs Hk. induction s as [|a s IH]; intros p g Hs; [reflexivity|].
  rewrite plus_lazy_String. destruct (Re.accepts cs a) eqn:Ha; [|reflexivity].
  pose proof (single_line_tail a s Hs (accepts_not_newline cs a Hcs Ha)) as Hs'.
  rewrite (Hk (Re.Cursor (S p) s g) Hs'). now apply IH.
Qed.

(** [$] fails wherever a newline lies ahead of the last character,
    whatever follows it in the pattern. *)
Lemma eol_rejects (k : Re.cursor -> option R) :
  rejects_multiline (Re.run Re.Eol k).
Proof.
  intros [p s g] Hs. cbn in Hs. cbn [Re.run Re.rest].
  destruct s as [|a [|b s']]; try discriminate. reflexivity.
Qed.

(** No construct of a newline-free pattern steps over a newline. *)
Lemma run_rejects (r : Re.regex) :
  newline_free r = true ->
  forall k : Re.cursor -> option R,
    rejects_multiline k -> rejects_multiline (Re.run r k).
Proof.
  induction r as [| |cs|cs|cs|r1 IH1 r2 IH2|r1 IH1|r1 IH1];
    cbn [newline_free]; intros Hr k Hk [p s g] Hs; cbn [Re.rest] in Hs.
  - rewrite run_Bol. destruct (Nat.eqb _ _); [now apply Hk | reflexivity].
  - now apply eol_rejects.
  - destruct s as [|a s']; [reflexivity|]. rewrite run_One_String.
    destruct (Re.accepts cs a) eqn:Ha; [|reflexivity].
    apply Hk. cbn [Re.rest].
    exact (single_line_tail a s' Hs (accepts_not_newline cs a Hr Ha)).
  - rewrite run_PlusG. now apply plus_greedy_rejects.
  - rewrite run_PlusL. now apply plus_lazy_rejects.
  - apply andb_true_iff in Hr as [Hr1 Hr2]. rewrite run_Cat.
    now apply (IH1 Hr1 (Re.run r2 k) (IH2 Hr2 k Hk)).
  - rewrite run_Opt. rewrite (IH1 Hr k Hk (Re.Cursor p s g) Hs).
    now apply Hk.
  - rewrite run_Grp. apply (IH1 Hr); [|exact Hs].
    intros c' Hc'. now apply Hk.
Qed.
End Multiline.

Lemma pkg_pattern_rejects {R : Type} (k : Re.cursor -> option R) :
  rejects_multiline (Re.run pkg_pattern k).
Proof.
  unfold pkg_pattern.
  change (rejects_multiline
    (Re.run (Re.Cat Re.Bol
       (Re.Cat (Re.Opt tap_part)
          (Re.Cat (Re.Grp name_part) (Re.Opt flags_part))))
       (Re.run Re.Eol k))).
  apply run_rejects; [reflexivity | apply eol_rejects].
Qed.

(** [^] keeps the search from matching anywhere but at the start. *)
Lemma search_from_later (subject s : string) (start : nat) :
  Re.search_from pkg_pattern subject (S start) s = None.
Proof.
  revert start. induction s as [|a s IH]; intros start.
  - reflexivity.
  - cbn [Re.search_from]. unfold pkg_pattern at 1. rewrite run_Cat, run_Bol.
    cbn [Re.pos Nat.eqb]. apply IH.
Qed.

Lemma search_multiline (pkg : string) :
  single_line pkg = false -> Re.search pkg_pattern pkg = None.
Proof.
  intros Hs. unfold Re.search. destruct pkg as [|a s]; [discriminate|].
  cbn [Re.search_from].
  rewrite (pkg_pattern_rejects _ (Re.Cursor 0 (String a s) None) Hs).
  apply search_from_later.
Qed.

(** X1: a target with a newline ahead of its last character does not
    match the pattern: [_install] logs the error of its no-match branch,
    returns [False] and spawns nothing. *)
Theorem install_rejects_multiline {H : Host}
    (install_format check_format pkg : string) (defaults : gmap string pyval)
    (w : World) :
  single_line pkg = false ->
  _install install_format check_format pkg defaults w
  = Result (Return false) w
      [Log Error ("Package name " +:+ pkg +:+ " doesn't work for some reason")].
Proof.
  intros Hs. unfold _install. rewrite (search_multiline pkg Hs).
  destruct pkg; [discriminate | reflexivity].
Qed.

Lemma install_rejects_multiline_witness :
  let pkg := String "a" (String newline "b") in
  single_line pkg = false
  /\ @_install example_host brew_install_format brew_check_format pkg
       brew_defaults 0%nat
     = Result (Return false) 0%nat
         [Log Error
            ("Package name " +:+ pkg +:+ " doesn't work for some reason")].
Proof.
  intros pkg. split; [reflexivity|].
  exact (@install_rejects_multiline example_host brew_install_format
           brew_check_format pkg brew_defaults 0%nat eq_refl).
Defined.

(** ** Targets that end in a newline *)

Lemma eol_tail_inv (tl : string) :
  is_eol_tail tl = true -> tl = "" \/ tl = String newline "".
Proof.
  destruct tl as [|c [|d tl']]; cbn; intros Htl; try discriminate.
  - now left.
  - right. apply Ascii.eqb_eq in Htl. now subst c.
Qed.

Lemma append_String (c : ascii) (s t : string) :
  String c s +:+ t = String c (s +:+ t).
Proof. reflexivity. Qed.

Section PatternFactsTail.
Variables (subject : string) (start : nat) (tl : string).
Hypothesis Htl : is_eol_tail tl = true.

Lemma plus_on_tail {R : Type} (k : Re.cursor -> option R) (p : nat)
    (g : option (nat * nat)) :
  Re.plus_greedy Re.AnyChar k p g tl = None
  /\ Re.plus_lazy Re.AnyChar k p g tl = None.
Proof. destruct (eol_tail_inv tl Htl) as [-> | ->]; split; reflexivity. Qed.

Lemma one_on_tail {R : Type} (k : Re.cursor -> option R) (a : ascii) (p : nat)
    (g : option (nat * nat)) :
  Ascii.eqb a newline = false ->
  Re.run (Re.One (Re.Chr a)) k (Re.Cursor p tl g) = None.
Proof.
  intros Ha. destruct (eol_tail_inv tl Htl) as [-> | ->]; [reflexivity|].
  rewrite run_One_String. cbn [Re.accepts].
  now rewrite Ascii.eqb_sym, Ha.
Qed.

Lemma eol_on_tail {R : Type} (k : Re.cursor -> option R) (p : nat)
    (g : option (nat * nat)) :
  Re.run Re.Eol k (Re.Cursor p tl g) = k (Re.Cursor p tl g).
Proof. destruct (eol_tail_inv tl Htl) as [-> | ->]; reflexivity. Qed.

(** A greedy [.+] runs up to the final newline. *)
Lemma greedy_to_tail (k : Re.cursor -> option Re.Match) (m : Re.Match)
    (s : string) (p : nat) (g : option (nat * nat)) :
  is_empty s = false -> no_newline s = true ->
  k (Re.Cursor (p + String.length s) tl g) = Some m ->
  Re.plus_greedy Re.AnyChar k p g (s +:+ tl) = Some m.
Proof.
  revert p. induction s as [|c s IH]; intros p Hne Hnl Hk; [discriminate|].
  apply no_newline_String in Hnl as [Hc Hs].
  rewrite append_String, plus_greedy_String, (accepts_AnyChar _ Hc).
  destruct s as [|c' s'].
  - change ("" +:+ tl) with tl. rewrite (proj1 (plus_on_tail k (S p) g)).
    rewrite <- Hk. do 2 f_equal. cbn. lia.
  - rewrite (IH (S p) eq_refl Hs); [reflexivity|].
    rewrite <- Hk. do 2 f_equal. cbn [String.length]. lia.
Qed.

Lemma flags_tail_nl (t : string) (p : nat) (g : option (nat * nat)) :
  no_newline t = true ->
  Re.run (Re.Cat (Re.Opt flags_part) Re.Eol) (Re.found subject start)
    (Re.Cursor p (t +:+ tl) g)
  = if flags_or_end t
    then Some (Re.MkMatch subject (start, p + String.length t) g)
    else None.
Proof.
  intros Hnl. rewrite run_Cat, run_Opt. unfold flags_part.
  rewrite run_Cat. destruct t as [|c u].
  - change ("" +:+ tl) with tl.
    rewrite (one_on_tail _ space p g eq_refl), eol_on_tail.
    unfold Re.found. cbn [flags_or_end Re.pos Re.g1]. same_match.
  - apply no_newline_String in Hnl as [Hc Hu].
    rewrite append_String, run_One_String, (run_Eol_String _ _ _ _ _ Hc).
    cbn [Re.accepts flags_or_end].
    destruct (Ascii.eqb c space) eqn:Esp; [|reflexivity].
    rewrite run_PlusG. cbn [Re.pos Re.rest Re.g1 andb].
    destruct u as [|c' u'].
    + change ("" +:+ tl) with tl.
      now rewrite (proj1 (plus_on_tail _ (S p) g)).
    + cbn [is_empty negb].
      erewrite greedy_to_tail; [reflexivity | reflexivity | exact Hu |].
      rewrite eol_on_tail. unfold Re.found. cbn [Re.pos Re.g1]. same_match.
Qed.

Lemma name_lazy_nl (t : string) (c : ascii) (p a : nat)
    (g : option (nat * nat)) :
  Ascii.eqb c newline = false -> no_newline t = true ->
  Re.plus_lazy Re.AnyChar
    (fun c' =>
       Re.run (Re.Cat (Re.Opt flags_part) Re.Eol) (Re.found subject start)
         (Re.Cursor (Re.pos c') (Re.rest c') (Some (a, Re.pos c'))))
    p g (String c (t +:+ tl))
  = Some (Re.MkMatch subject (start, S p + String.length t)
            (Some (a, S p + String.length (cut_flags t)))).
Proof.
  revert c p. induction t as [|c' t IH]; intros c p Hc Hnl.
  - rewrite plus_lazy_String, (accepts_AnyChar _ Hc). cbn [Re.pos Re.rest].
    rewrite (flags_tail_nl "" _ _ eq_refl). cbn [flags_or_end cut_flags].
    same_match.
  - rewrite plus_lazy_String, (accepts_AnyChar _ Hc). cbn [Re.pos Re.rest].
    rewrite (flags_tail_nl _ _ _ Hnl).
    cbn [flags_or_end cut_flags].
    destruct (Ascii.eqb c' space && negb (is_empty t)) eqn:E.
    + same_match.
    + apply no_newline_String in Hnl as [Hc' Ht].
      rewrite append_String, (IH c' (S p) Hc' Ht). same_match.
Qed.

Lemma name_and_flags_nl (r : string) (p : nat) (g : option (nat * nat)) :
  no_newline r = true ->
  Re.run (Re.Cat (Re.Grp name_part) (Re.Cat (Re.Opt flags_part) Re.Eol))
    (Re.found subject start) (Re.Cursor p (r +:+ tl) g)
  = if is_empty r then None
    else Some (Re.MkMatch subject (start, p + String.length r)
                 (Some (p, p + String.length (before_flags r)))).
Proof.
  intros Hnl. rewrite run_Cat, run_Grp. unfold name_part. rewrite run_PlusL.
  cbn [Re.pos Re.rest Re.g1].
  destruct r as [|c t].
  - change ("" +:+ tl) with tl. now rewrite (proj2 (plus_on_tail _ p g)).
  - apply no_newline_String in Hnl as [Hc Ht].
    rewrite append_String, (name_lazy_nl t c p p g Hc Ht).
    cbn [before_flags is_empty]. same_match.
Qed.

Lemma tap_greedy_nl (t : string) (c : ascii) (p : nat)
    (g : option (nat * nat)) :
  Ascii.eqb c newline = false -> no_newline t = true ->
  Re.plus_greedy Re.AnyChar
    (Re.run (Re.One (Re.Chr slash))
       (Re.run (Re.Cat (Re.Grp name_part) (Re.Cat (Re.Opt flags_part) Re.Eol))
          (Re.found subject start)))
    p g (String c (t +:+ tl))
  = match tail_after_slash t with
    | Some r =>
        let q := S p + String.length t - String.length r in
        Some (Re.MkMatch subject (start, S p + String.length t)
                (Some (q, q + String.length (before_flags r))))
    | None => None
    end.
Proof.
  revert c p. induction t as [|c' t IH]; intros c p Hc Hnl.
  - rewrite plus_greedy_String, (accepts_AnyChar _ Hc).
    change ("" +:+ tl) with tl. rewrite (proj1 (plus_on_tail _ (S p) g)).
    now rewrite (one_on_tail _ slash (S p) g eq_refl).
  - rewrite plus_greedy_String, (accepts_AnyChar _ Hc).
    pose proof Hnl as Hnl'. apply no_newline_String in Hnl' as [Hc' Ht].
    rewrite append_String, (IH c' (S p) Hc' Ht). cbn [tail_after_slash].
    destruct (tail_after_slash t) as [r|] eqn:E.
    + cbv zeta. same_match.
    + rewrite run_One_String. cbn [Re.accepts].
      destruct (Ascii.eqb c' slash); [|reflexivity].
      rewrite (name_and_flags_nl _ _ _ Ht). cbn [andb].
      destruct (is_empty t); [reflexivity|].
      cbn [negb]. cbv zeta. same_match.
Qed.
End PatternFactsTail.

Lemma chomp_split (s : string) :
  single_line s = true ->
  exists tl, is_eol_tail tl = true /\ s = chomp s +:+ tl
             /\ no_newline (chomp s) = true.
Proof.
  induction s as [|c s IH]; intros Hs.
  - now exists "".
  - destruct s as [|d s'].
    + cbn [chomp]. destruct (Ascii.eqb c newline) eqn:Hc.
      * exists (String c ""). cbn. now rewrite Hc.
      * exists "". cbn. now rewrite Hc.
    + cbn [single_line] in Hs. apply andb_true_iff in Hs as [Hc Hs].
      destruct (IH Hs) as [tl [Htl [Heq Hnl]]]. exists tl.
      change (chomp (String c (String d s')))
        with (String c (chomp (String d s'))).
      repeat split; [exact Htl | | ].
      * rewrite append_String. f_equal. exact Heq.
      * cbn [no_newline]. now rewrite Hc, Hnl.
Qed.

(** On a target made of a non-empty line and at most a final newline
    the search succeeds at the start, spans the line, and group 1 is the
    canonical name of the line. *)
Lemma search_accepts (pre tl : string) :
  is_empty pre = false -> no_newline pre = true -> is_eol_tail tl = true ->
  exists q,
    Re.search pkg_pattern (pre +:+ tl)
    = Some (Re.MkMatch (pre +:+ tl) (0, String.length pre)
              (Some (q, q + String.length (canonical_name pre))))
    /\ substring q (String.length (canonical_name pre)) (pre +:+ tl)
       = canonical_name pre.
Proof.
  intros Hne Hnl Htl. destruct pre as [|c t]; [discriminate|].
  pose proof Hnl as Hnl'. apply no_newline_String in Hnl' as [Hc Ht].
  unfold Re.search. rewrite append_String. cbn [Re.search_from].
  unfold pkg_pattern.
  rewrite run_Cat, run_Bol. cbn [Re.pos Nat.eqb].
  rewrite run_Cat, run_Opt. unfold tap_part at 1.
  rewrite run_Cat, run_PlusG. cbn [Re.pos Re.rest Re.g1].
  rewrite (tap_greedy_nl _ _ tl Htl t c 0 None Hc Ht).
  unfold canonical_name, after_tap.
  destruct (tail_after_slash t) as [r|] eqn:E.
  - destruct (tail_after_slash_length t r E) as [pre [Hpre Hlen]].
    exists (String.length (String c pre +:+ String slash "")). split.
    + cbv zeta. rewrite length_append. same_match.
    + replace (String c (t +:+ tl))
        with ((String c pre +:+ String slash "") +:+ (r +:+ tl)).
      * rewrite substring_skip.
        destruct (before_flags_prefix r) as [x Hx].
        rewrite Hx at 2. rewrite append_String_assoc. apply substring_prefix.
      * rewrite Hpre, !append_String_assoc. reflexivity.
  - exists 0. split.
    + rewrite <- append_String.
      rewrite (name_and_flags_nl _ _ tl Htl _ _ _ Hnl). cbn [is_empty].
      same_match.
    + destruct (before_flags_prefix (String c t)) as [x Hx].
      rewrite <- append_String. rewrite Hx at 2.
      rewrite append_String_assoc. apply substring_prefix.
Qed.

Lemma search_name (pkg : string) :
  single_line pkg = true -> is_empty (chomp pkg) = false ->
  exists m, Re.search pkg_pattern pkg = Some m
            /\ Re.group1 m = Some (canonical_name (chomp pkg)).
Proof.
  intros Hs Hne. destruct (chomp_split pkg Hs) as [tl [Htl [Heq Hnl]]].
  destruct (search_accepts (chomp pkg) tl Hne Hnl Htl) as [q [Hq Hsub]].
  rewrite <- Heq in Hq, Hsub. eexists. split; [exact Hq|].
  unfold Re.group1. cbn [Re.m_g1 Re.m_string].
  replace (q + String.length (canonical_name (chomp pkg)) - q)
    with (String.length (canonical_name (chomp pkg))) by lia.
  now rewrite Hsub.
Qed.

(** X2: the name [_install] extracts, on every string.  The pattern
    matches exactly the targets made of a non-empty line followed by at
    most one newline, and the name is the canonical name of that line;
    on every other string there is no match. *)
Theorem pkg_name_of_spec (pkg : string) :
  pkg_name_of pkg
  = if single_line pkg && negb (is_empty (chomp pkg))
    then Some (canonical_name (chomp pkg))
    else None.
Proof.
  unfold pkg_name_of. destruct (single_line pkg) eqn:Hs; cbn [andb].
  - destruct (is_empty (chomp pkg)) eqn:Hne; cbn [negb].
    + destruct (chomp_split pkg Hs) as [tl [Htl [Heq _]]].
      destruct (chomp pkg); [|discriminate]. cbn in Heq. subst pkg.
      destruct (eol_tail_inv tl Htl) as [-> | ->]; reflexivity.
    + destruct (search_name pkg Hs Hne) as [m [Hm Hg]]. now rewrite Hm.
  - now rewrite (search_multiline pkg Hs).
Qed.

(** Whenever the pattern matches, group 1 is the canonical name of the
    target without its final newline. *)
Lemma search_Some_name (pkg : string) (m : Re.Match) :
  Re.search pkg_pattern pkg = Some m ->
  group_text m = canonical_name (chomp pkg).
Proof.
  intros Hm. destruct (single_line pkg) eqn:Hs.
  2:{ rewrite (search_multiline pkg Hs) in Hm. discriminate. }
  destruct (is_empty (chomp pkg)) eqn:Hne.
  - destruct (chomp_split pkg Hs) as [tl [Htl [Heq _]]].
    destruct (chomp pkg); [|discriminate]. cbn in Heq. subst pkg.
    destruct (eol_tail_inv tl Htl) as [-> | ->]; discriminate.
  - destruct (search_name pkg Hs Hne) as [m' [Hm' Hg]].
    rewrite Hm in Hm'. injection Hm' as <-.
    unfold group_text. now rewrite Hg.
Qed.

(** ** Effects *)

Lemma spawns_app (t1 t2 : list event) :
  spawns (t1 ++ t2) = (spawns t1 ++ spawns t2)%list.
Proof.
  induction t1 as [|[c|l msg] t1 IH]; cbn; [reflexivity | now rewrite IH | exact IH].
Qed.

Lemma logged_app (l : level) (t1 t2 : list event) :
  logged l (t1 ++ t2) = (logged l t1 ++ logged l t2)%list.
Proof.
  induction t1 as [|[c|l' msg] t1 IH]; cbn; [reflexivity | exact IH |].
  destruct l, l'; cbn; now rewrite ?IH.
Qed.

Section EffectFacts.
Context {H : Host}.

Lemma bind_Return {A B : Type} (m : M A) (f : A -> M B) (w : World) (a : A) :
  value (m w) = Return a ->
  bind m f w
  = Result (value (f a (final (m w)))) (final (f a (final (m w))))
      (events (m w) ++ events (f a (final (m w)))).
Proof. intros Hv. unfold bind. now rewrite Hv. Qed.

Lemma bind_Raise {A B : Type} (m : M A) (f : A -> M B) (w : World) (e : exn) :
  value (m w) = Raise e ->
  bind m f w = Result (Raise e) (final (m w)) (events (m w)).
Proof. intros Hv. unfold bind. now rewrite Hv. Qed.

Lemma bind_ret {A B : Type} (a : A) (f : A -> M B) (w : World) :
  bind (ret a) f w = f a w.
Proof. unfold bind, ret. cbn. now destruct (f a w). Qed.

Lemma bind_raise {A B : Type} (e : exn) (f : A -> M B) (w : World) :
  bind (raise e) f w = Result (Raise e) w [].
Proof. reflexivity. Qed.

Lemma bind_log {B : Type} (l : level) (msg : string) (f : unit -> M B)
    (w : World) :
  bind (log l msg) f w
  = Result (value (f tt w)) (final (f tt w)) (Log l msg :: events (f tt w)).
Proof. reflexivity. Qed.

Lemma bind_call {B : Type} (c : call) (f : Z -> M B) (w : World) :
  bind (subprocess_call c) f w
  = match fst (call_result c w) with
    | Return code =>
        let r := f code (snd (call_result c w)) in
        Result (value r) (final r) (Spawn c :: events r)
    | Raise e => Result (Raise e) (snd (call_result c w)) [Spawn c]
    end.
Proof.
  unfold bind, subprocess_call.
  now destruct (call_result c w) as [[code|e] w'].
Qed.


(** With the three switches present, [_invoke_shell_command] makes
    exactly one call and comes back with what it comes back with. *)
Lemma invoke_shell_complete (cmd : string) (defaults : gmap string pyval)
    (w : World) :
  complete defaults ->
  _invoke_shell_command cmd defaults w
  = Result (fst (call_result (shell_call defaults cmd) w))
      (snd (call_result (shell_call defaults cmd) w))
      [Spawn (shell_call defaults cmd)].
Proof.
  intros [[v1 H1] [[v2 H2] [v3 H3]]].
  unfold _invoke_shell_command, shell_call, getitem.
  rewrite H1, H2, H3. unfold stream_for, bind, ret, subprocess_call.
  cbn [value final events app].
  now destruct (call_result _ w).
Qed.

(** A missing switch raises [KeyError] before any child is spawned. *)
Lemma invoke_shell_incomplete (cmd : string) (defaults : gmap string pyval)
    (w : World) :
  ~ complete defaults ->
  exists key, _invoke_shell_command cmd defaults w
              = Result (Raise (KeyError key)) w [].
Proof.
  intros Hn. unfold _invoke_shell_command, getitem.
  destruct (defaults !! "stdin") as [v1|] eqn:H1; [|now exists "stdin"].
  destruct (defaults !! "stdout") as [v2|] eqn:H2; [|now exists "stdout"].
  destruct (defaults !! "stderr") as [v3|] eqn:H3; [|now exists "stderr"].
  exfalso. apply Hn. unfold complete. rewrite H1, H2, H3. eauto.
Qed.

(** What [_install] does once the target is non-empty, the pattern has
    matched and the check command has been formatted. *)
Lemma install_matched (install_format check_format pkg : string)
    (defaults : gmap string pyval) (m : Re.Match) (check_cmd : string)
    (w : World) :
  is_empty pkg = false ->
  Re.search pkg_pattern pkg = Some m ->
  format check_format [("pkg_name", group_text m)] = Return check_cmd ->
  _install install_format check_format pkg defaults w
  = let chk := call_result (check_call check_cmd) w in
    match fst chk with
    | Raise e => Result (Raise e) (snd chk) [Spawn (check_call check_cmd)]
    | Return code =>
        if (code =? 0)%Z then
          Result (Return true) (snd chk)
            [Spawn (check_call check_cmd);
             Log Debug (pkg +:+ " already installed")]
        else
          let r :=
            (let* install_cmd := lift (format install_format [("pkg", pkg)]) in
             let* result := _invoke_shell_command install_cmd defaults in
             let* _ :=
               if negb (0 =? result)%Z
               then log Warning "Failed to install [{pkg}]"
               else ret tt in
             ret (0 =? result)%Z) (snd chk) in
          Result (value r) (final r)
            (Spawn (check_call check_cmd) :: Log Info ("Installing " +:+ pkg)
             :: events r)
    end.
Proof.
  intros Hne Hs Hf. unfold _install. rewrite Hne, Hs, Hf.
  cbv zeta. cbn [lift]. rewrite bind_ret, bind_call.
  destruct (fst (call_result (check_call check_cmd) w)) as [code|e];
    [|reflexivity].
  cbv zeta. destruct (code =? 0)%Z.
  - rewrite bind_log. reflexivity.
  - rewrite bind_log. reflexivity.
Qed.
End EffectFacts.

(** ** [_install] *)

Section InstallFacts.
Context {H : Host}.

(** What [_install] does when the check fails, the install command has
    been formatted and the three switches are present. *)
Lemma install_absent (install_format check_format pkg : string)
    (defaults : gmap string pyval) (m : Re.Match)
    (check_cmd install_cmd : string) (w : World) (code : Z) :
  is_empty pkg = false ->
  Re.search pkg_pattern pkg = Some m ->
  format check_format [("pkg_name", group_text m)] = Return check_cmd ->
  fst (call_result (check_call check_cmd) w) = Return code ->
  (code =? 0)%Z = false ->
  format install_format [("pkg", pkg)] = Return install_cmd ->
  complete defaults ->
  _install install_format check_format pkg defaults w
  = let chk := call_result (check_call check_cmd) w in
    let ins := call_result (shell_call defaults install_cmd) (snd chk) in
    match fst ins with
    | Return status =>
        Result (Return (0 =? status)%Z) (snd ins)
          (Spawn (check_call check_cmd) :: Log Info ("Installing " +:+ pkg)
           :: Spawn (shell_call defaults install_cmd)
           :: (if negb (0 =? status)%Z
               then [Log Warning "Failed to install [{pkg}]"] else []))
    | Raise e =>
        Result (Raise e) (snd ins)
          [Spawn (check_call check_cmd); Log Info ("Installing " +:+ pkg);
           Spawn (shell_call defaults install_cmd)]
    end.
Proof.
  intros Hne Hs Hf Hchk Hcode Hi Hd.
  rewrite (install_matched _ _ _ _ _ _ _ Hne Hs Hf). cbv zeta.
  rewrite Hchk, Hcode, Hi. cbn [lift]. rewrite bind_ret.
  set (w1 := snd (call_result (check_call check_cmd) w)).
  pose proof (invoke_shell_complete install_cmd defaults w1 Hd) as Hins.
  destruct (fst (call_result (shell_call defaults install_cmd) w1))
    as [status|e] eqn:Hst.
  - rewrite (bind_Return _ _ _ status) by (now rewrite Hins).
    rewrite Hins. cbn [value final events].
    destruct (0 =? status)%Z.
    + cbn [negb]. rewrite bind_ret. reflexivity.
    + cbn [negb]. rewrite bind_log. reflexivity.
  - rewrite (bind_Raise _ _ _ e) by (now rewrite Hins).
    rewrite Hins. reflexivity.
Qed.

(** C1: for a non-empty target that the pattern accepts, when the check
    command, with the extracted name substituted, exits with status 0,
    [_install] returns [True]; the check is the only subprocess it
    spawns, so the install command is never invoked. *)
Theorem install_skips_present (install_format check_format pkg : string)
    (defaults : gmap string pyval) (m : Re.Match) (check_cmd : string)
    (w : World) :
  is_empty pkg = false ->
  Re.search pkg_pattern pkg = Some m ->
  format check_format [("pkg_name", group_text m)] = Return check_cmd ->
  fst (call_result (check_call check_cmd) w) = Return 0%Z ->
  let r := _install install_format check_format pkg defaults w in
  value r = Return true
  /\ spawns (events r) = [check_call check_cmd]
  /\ final r = snd (call_result (check_call check_cmd) w).
Proof.
  intros Hne Hs Hf Hc r. subst r.
  rewrite (install_matched _ _ _ _ _ _ _ Hne Hs Hf). cbv zeta.
  rewrite Hc. cbn. auto.
Qed.

(** C2: for a non-empty target that the pattern accepts, when the check
    command exits with a non-zero status, [_install] runs the install
    command with the whole target substituted, under the caller's
    switches, and returns [True] exactly when that command exits with
    status 0; on a non-zero status it logs a warning and returns
    [False]. *)
Theorem install_runs_when_absent (install_format check_format pkg : string)
    (defaults : gmap string pyval) (m : Re.Match)
    (check_cmd install_cmd : string) (w : World) (code : Z) :
  is_empty pkg = false ->
  Re.search pkg_pattern pkg = Some m ->
  format check_format [("pkg_name", group_text m)] = Return check_cmd ->
  fst (call_result (check_call check_cmd) w) = Return code ->
  code <> 0%Z ->
  format install_format [("pkg", pkg)] = Return install_cmd ->
  complete defaults ->
  let r := _install install_format check_format pkg defaults w in
  let w1 := snd (call_result (check_call check_cmd) w) in
  let ins := fst (call_result (shell_call defaults install_cmd) w1) in
  spawns (events r) = [check_call check_cmd; shell_call defaults install_cmd]
  /\ (value r = Return true <-> ins = Return 0%Z)
  /\ (forall status, ins = Return status -> status <> 0%Z ->
      value r = Return false
      /\ logged Warning (events r) = ["Failed to install [{pkg}]"])
  /\ (forall e, ins = Raise e -> value r = Raise e).
Proof.
  intros Hne Hs Hf Hchk Hc Hi Hd r w1 ins. subst r.
  apply Z.eqb_neq in Hc.
  rewrite (install_absent _ _ _ _ _ _ _ _ _ Hne Hs Hf Hchk Hc Hi Hd).
  cbv zeta. fold w1. fold ins.
  destruct ins as [status|e]; cbn [value events spawns].
  - destruct (Z.eqb_spec 0 status) as [E|E].
    + subst status. repeat split; try reflexivity; intros; congruence.
    + repeat split; try reflexivity; intros; congruence.
  - repeat split; try reflexivity; intros; congruence.
Qed.

(** C5: on the empty target [_install] returns [False] at once, after
    logging an error; no subprocess is spawned, neither the check nor
    the install command. *)
Theorem install_blank (install_format check_format : string)
    (defaults : gmap string pyval) (w : World) :
  let r := _install install_format check_format "" defaults w in
  value r = Return false
  /\ spawns (events r) = []
  /\ events r = [Log Error "Cannot process blank package name"]
  /\ final r = w.
Proof. cbn. auto. Qed.
End InstallFacts.

Section CheckStep.
Context {H : Host}.

(** The first subprocess of [_install], if it spawns any, is the check:
    the check template formatted with the extracted name, on the null
    device. *)
Lemma install_first_spawn (install_format check_format pkg : string)
    (defaults : gmap string pyval) (w : World) :
  head (spawns (events (_install install_format check_format pkg defaults w)))
  = if is_empty pkg then None
    else match Re.search pkg_pattern pkg with
         | None => None
         | Some m =>
             match format check_format [("pkg_name", group_text m)] with
             | Return check_cmd => Some (check_call check_cmd)
             | Raise _ => None
             end
         end.
Proof.
  destruct (is_empty pkg) eqn:Hne.
  { unfold _install. rewrite Hne. reflexivity. }
  destruct (Re.search pkg_pattern pkg) as [m|] eqn:Hs.
  2:{ unfold _install. rewrite Hne, Hs. reflexivity. }
  destruct (format check_format [("pkg_name", group_text m)])
    as [check_cmd|e] eqn:Hf.
  2:{ unfold _install. rewrite Hne, Hs, Hf. reflexivity. }
  rewrite (install_matched _ _ _ _ _ _ _ Hne Hs Hf). cbv zeta.
  destruct (fst (call_result (check_call check_cmd) w)) as [code|e];
    [|reflexivity].
  now destruct (code =? 0)%Z.
Qed.

(** C6: whatever the target and the caller's options, the check command
    of [_install] runs with stdin, stdout and stderr all on the null
    device, and it is the same call under any other options. *)
Theorem check_streams_discarded (install_format check_format pkg : string)
    (defaults : gmap string pyval) (w : World) (c : call) :
  head (spawns (events (_install install_format check_format pkg defaults w)))
  = Some c ->
  (exists m, Re.search pkg_pattern pkg = Some m
             /\ format check_format [("pkg_name", group_text m)]
                = Return (cmd c))
  /\ (c_stdin c = ArgFile os_devnull /\ c_stdout c = ArgFile os_devnull
      /\ c_stderr c = ArgFile os_devnull)
  /\ (discarded (child_endpoint (c_stdin c)) = true
      /\ discarded (child_endpoint (c_stdout c)) = true
      /\ discarded (child_endpoint (c_stderr c)) = true)
  /\ forall defaults',
       head (spawns (events
         (_install install_format check_format pkg defaults' w))) = Some c.
Proof.
  rewrite install_first_spawn. intros Hc.
  assert (Hall : forall defaults',
    head (spawns (events
      (_install install_format check_format pkg defaults' w))) = Some c).
  { intros defaults'. now rewrite install_first_spawn. }
  destruct (is_empty pkg); [discriminate|].
  destruct (Re.search pkg_pattern pkg) as [m|]; [|discriminate].
  destruct (format check_format [("pkg_name", group_text m)])
    as [check_cmd|e] eqn:Hf; [|discriminate].
  injection Hc as <-. split; [|split; [|split]].
  - exists m. split; [reflexivity | exact Hf].
  - cbn. auto.
  - cbn. auto.
  - exact Hall.
Qed.

(** C8: with a falsy toggle the bootstrap handler logs an error and
    returns [False]; it spawns no subprocess. *)
Theorem install_brew_disabled (val : pyval) (defaults : gmap string pyval)
    (w : World) :
  truthy val = false ->
  let r := _install_brew val defaults w in
  value r = Return false /\ spawns (events r) = [] /\ final r = w.
Proof.
  intros Hv r. subst r. unfold _install_brew. rewrite Hv. cbn. auto.
Qed.
End CheckStep.

(** ** The fixed command templates *)

Lemma brew_check_cmd (name : string) :
  format brew_check_format [("pkg_name", name)]
  = Return ("test -d /opt/homebrew/Cellar/" +:+ name
            +:+ " || /opt/homebrew/bin/brew ls --versions " +:+ name).
Proof. vm_compute. now rewrite append_empty_r. Qed.

Lemma brew_install_cmd (pkg : string) :
  format brew_install_format [("pkg", pkg)]
  = Return ("/opt/homebrew/bin/brew install " +:+ pkg).
Proof. vm_compute. now rewrite append_empty_r. Qed.

Lemma cask_check_cmd (name : string) :
  format cask_check_format [("pkg_name", name)]
  = Return ("test -d /opt/homebrew/Caskroom/" +:+ name
            +:+ " || /opt/homebrew/bin/brew ls --cask --versions " +:+ name).
Proof. vm_compute. now rewrite append_empty_r. Qed.

Lemma cask_install_cmd (pkg : string) :
  format cask_install_format [("pkg", pkg)]
  = Return ("/opt/homebrew/bin/brew install --cask " +:+ pkg).
Proof. vm_compute. now rewrite append_empty_r. Qed.

(** ** Batches *)

(** *** Commands without a NUL character *)

Lemma no_newline_append (s1 s2 : string) :
  no_newline (s1 +:+ s2) = no_newline s1 && no_newline s2.
Proof.
  induction s1 as [|c s1 IH]; simpl; [reflexivity|].
  now rewrite IH, andb_assoc.
Qed.

Lemma is_empty_append (s1 s2 : string) :
  is_empty s1 = false -> is_empty (s1 +:+ s2) = false.
Proof. now destruct s1. Qed.

Lemma has_char_append (a : ascii) (s1 s2 : string) :
  has_char a (s1 +:+ s2) = has_char a s1 || has_char a s2.
Proof.
  induction s1 as [|c s1 IH]; simpl; [reflexivity|].
  now rewrite IH, orb_assoc.
Qed.







Section BatchFacts.
Context {H : Host}.


(** The loop of [_brew] and [_cask], with its flag starting at [acc],
    against [install_each]: same subprocesses, same final world, and the
    flag ends as the conjunction of [acc] and the per-target results. *)
Lemma batch_loop (install_format check_format : string)
    (defaults : gmap string pyval) (targets : list string) :
  forall (acc : bool) (w : World),
    let r :=
      for_each targets
        (fun pkg result =>
           let* run := _install install_format check_format pkg defaults in
           if negb run then
             let* _ := log Error "Some packages were not installed" in
             ret false
           else ret result)
        acc w in
    let e := install_each install_format check_format targets defaults w in
    final r = final e
    /\ spawns (events r) = spawns (events e)
    /\ value r = match value e with
                 | Return rs => Return (acc && forallb id rs)
                 | Raise x => Raise x
                 end.
Proof.
  induction targets as [|pkg targets IH]; intros acc w.
  - cbn. now rewrite andb_true_r.
  - cbn [for_each install_each]. cbv zeta.
    set (i := _install install_format check_format pkg defaults).
    destruct (value (i w)) as [b|x] eqn:Hi.
    + rewrite (bind_Return i _ w b Hi).
      specialize (IH (if negb b then false else acc) (final (i w))).
      cbv zeta in IH. destruct IH as [IHf [IHs IHv]].
      set (e := install_each install_format check_format targets defaults
                  (final (i w))) in *.
      assert (Hbody :
        (let* run := i in
         if negb run then
           let* _ := log Error "Some packages were not installed" in ret false
         else ret acc) w
        = Result (Return (if negb b then false else acc)) (final (i w))
            (events (i w)
             ++ (if negb b
                 then [Log Error "Some packages were not installed"]
                 else []))).
      { rewrite (bind_Return i _ w b Hi). now destruct b. }
      rewrite (bind_Return _ _ w _ (f_equal value Hbody)).
      rewrite Hbody. cbn [value final events].
      destruct (value e) as [rs|x] eqn:He.
      * rewrite (bind_Return _ _ (final (i w)) rs He).
        cbn [value final events ret]. rewrite !spawns_app, IHs, IHf, IHv.
        repeat split.
        -- destruct b; cbn; now rewrite ?app_nil_r.
        -- cbn [forallb id]. f_equal. destruct b, acc; reflexivity.
      * rewrite (bind_Raise _ _ (final (i w)) x He).
        cbn [value final events]. rewrite !spawns_app, IHs, IHf, IHv.
        repeat split. destruct b; cbn; now rewrite ?app_nil_r.
    + rewrite (bind_Raise i _ w x Hi).
      assert (Hbody :
        (let* run := i in
         if negb run then
           let* _ := log Error "Some packages were not installed" in ret false
         else ret acc) w
        = Result (Raise x) (final (i w)) (events (i w))).
      { now rewrite (bind_Raise i _ w x Hi). }
      rewrite (bind_Raise _ _ w x (f_equal value Hbody)), Hbody.
      cbn. auto.
Qed.


End BatchFacts.

Section BatchTheorems.
Context {H : Host}.

(** The batch handlers in terms of their loop: a summary line is all
    they add. *)
Lemma batch_wrap (loop : M bool) (summary : string) (w : World) (b : bool) :
  value (loop w) = Return b ->
  let r :=
    (let* result := loop in
     let* _ := if result then log Info summary else ret tt in
     ret result) w in
  value r = Return b
  /\ final r = final (loop w)
  /\ spawns (events r) = spawns (events (loop w)).
Proof.
  intros Hb r. subst r. rewrite (bind_Return loop _ w b Hb).
  cbn [value final events]. rewrite spawns_app.
  destruct b; cbn; rewrite ?app_nil_r; auto.
Qed.




(** *** Loops over commands: [_tap] *)








End BatchTheorems.

(** ** Streams of the install step *)

Lemma handle_defaults_complete
    (context_defaults : gmap string (gmap string pyval)) (directive : string) :
  can_handle directive = true ->
  complete (handle_defaults context_defaults directive).
Proof.
  intros Hc. unfold complete, handle_defaults.
  rewrite !lookup_union_is_Some.
  unfold can_handle, directives in Hc. cbn [existsb] in Hc.
  repeat (apply orb_true_iff in Hc as [Hc|Hc];
          [apply String.eqb_eq in Hc; subst directive;
           repeat split; right; eexists; vm_compute; reflexivity|]).
  discriminate.
Qed.

(** What a switch does to a stream of the install step: a falsy switch
    puts it on the null device, a truthy one on the parent's descriptor
    1, whichever of the three streams it is. *)
Lemma switch_endpoint (v : pyval) :
  child_endpoint (stream_for (Some v))
  = if truthy v then ParentFd 1 else OpenFile os_devnull.
Proof. cbn. now destruct (truthy v). Qed.

Section StreamFacts.
Context {H : Host}.

Lemma invoke_shell_streams (cmd : string) (defaults : gmap string pyval)
    (w : World) (stdin stdout stderr : pyval) :
  defaults !! "stdin" = Some stdin ->
  defaults !! "stdout" = Some stdout ->
  defaults !! "stderr" = Some stderr ->
  exists c,
    spawns (events (_invoke_shell_command cmd defaults w)) = [c]
    /\ discarded (child_endpoint (c_stdin c)) = negb (truthy stdin)
    /\ discarded (child_endpoint (c_stdout c)) = negb (truthy stdout)
    /\ discarded (child_endpoint (c_stderr c)) = negb (truthy stderr).
Proof.
  intros H1 H2 H3. exists (shell_call defaults cmd).
  rewrite invoke_shell_complete by (unfold complete; rewrite H1, H2, H3; eauto).
  unfold shell_call. cbn [events spawns c_stdin c_stdout c_stderr].
  rewrite H1, H2, H3, !switch_endpoint.
  repeat split; [destruct (truthy stdin) | destruct (truthy stdout)
                 | destruct (truthy stderr)]; reflexivity.
Qed.

(** C7: with the switches of [install-brew] and [brewfile], all [True],
    the install step hands the value [True] to [subprocess.call] for each
    stream.  The child's stdout is the parent's stdout, but its stdin and
    its stderr are the parent's descriptor 1 as well, not the parent's
    stdin and stderr. *)
Theorem invoke_shell_true_is_fd1 (cmd : string) (w : World) :
  let defaults := handle_defaults ∅ "install-brew" in
  exists c,
    spawns (events (_invoke_shell_command cmd defaults w)) = [c]
    /\ (c_stdin c = ArgBool true /\ c_stdout c = ArgBool true
        /\ c_stderr c = ArgBool true)
    /\ child_endpoint (c_stdin c) = ParentFd STDOUT_FILENO
    /\ child_endpoint (c_stderr c) = ParentFd STDOUT_FILENO
    /\ inherited STDIN_FILENO (child_endpoint (c_stdin c)) = false
    /\ inherited STDOUT_FILENO (child_endpoint (c_stdout c)) = true
    /\ inherited STDERR_FILENO (child_endpoint (c_stderr c)) = false.
Proof.
  intros defaults. exists (shell_call defaults cmd).
  rewrite invoke_shell_complete
    by (apply handle_defaults_complete; reflexivity).
  assert (H1 : defaults !! "stdin" = Some (PyBool true)) by reflexivity.
  assert (H2 : defaults !! "stdout" = Some (PyBool true)) by reflexivity.
  assert (H3 : defaults !! "stderr" = Some (PyBool true)) by reflexivity.
  unfold shell_call. cbn [events spawns c_stdin c_stdout c_stderr].
  rewrite H1, H2, H3. cbn. auto 10.
Qed.
End StreamFacts.

(** ** Name extraction on targets made of a tap, a name and flags *)

Lemma tail_after_slash_none (t : string) :
  has_char slash t = false -> tail_after_slash t = None.
Proof.
  induction t as [|c t IH]; simpl; [reflexivity|].
  intros Hc. apply orb_false_iff in Hc as [Hc Ht].
  now rewrite (IH Ht), Hc.
Qed.

Lemma tail_after_slash_tap (ns r : string) :
  is_empty r = false -> has_char slash r = false ->
  tail_after_slash (ns +:+ String slash r) = Some r.
Proof.
  intros Hne Hr. induction ns as [|c ns IH]; simpl.
  - now rewrite (tail_after_slash_none r Hr), Hne.
  - now rewrite IH.
Qed.

Lemma cut_flags_name (t suf : string) :
  has_char space t = false -> flags_or_end suf = true ->
  cut_flags (t +:+ suf) = t.
Proof.
  intros Ht Hsuf. induction t as [|c t IH]; simpl.
  - destruct suf as [|c u]; [reflexivity|]. simpl in *. now rewrite Hsuf.
  - simpl in Ht. apply orb_false_iff in Ht as [Hc Ht].
    now rewrite Hc, (IH Ht).
Qed.

(** Where the pattern does strip the tap and the flags: the name holds
    neither slash nor space, and the flags hold no slash. *)
Lemma pkg_name_strips_tap_and_flags (ns name flags : string) :
  is_empty ns = false -> no_newline ns = true ->
  is_empty name = false -> no_newline name = true ->
  has_char slash name = false -> has_char space name = false ->
  is_empty flags = false -> no_newline flags = true ->
  has_char slash flags = false ->
  pkg_name_of name = Some name
  /\ pkg_name_of (ns +:+ String slash name) = Some name
  /\ pkg_name_of (name +:+ String space flags) = Some name
  /\ pkg_name_of (ns +:+ String slash (name +:+ String space flags)) = Some name.
Proof.
  intros Hns Hnsl Hname Hnamel Hslash Hspace Hflags Hflagsl Hfslash.
  assert (Hbare : before_flags name = name).
  { destruct name as [|c t]; [discriminate|]. simpl in *.
    apply orb_false_iff in Hspace as [_ Ht].
    rewrite <- (append_empty_r t) at 1. now rewrite cut_flags_name. }
  assert (Hflagged : before_flags (name +:+ String space flags) = name).
  { destruct name as [|c t]; [discriminate|]. simpl in *.
    apply orb_false_iff in Hspace as [_ Ht].
    rewrite cut_flags_name; [reflexivity | exact Ht |].
    simpl. now rewrite Hflags. }
  assert (Hrest : has_char slash (name +:+ String space flags) = false).
  { rewrite has_char_append, Hslash. simpl. now rewrite Hfslash. }
  assert (Hrestl : no_newline (name +:+ String space flags) = true).
  { rewrite no_newline_append, Hnamel. simpl. now rewrite Hflagsl. }
  repeat split.
  - rewrite pkg_name_of_canonical by assumption.
    unfold canonical_name, after_tap. destruct name as [|c t]; [discriminate|].
    simpl in Hslash. apply orb_false_iff in Hslash as [_ Ht].
    rewrite (tail_after_slash_none t Ht). now rewrite Hbare.
  - rewrite pkg_name_of_canonical.
    + unfold canonical_name, after_tap. destruct ns as [|c ns']; [discriminate|].
      simpl. now rewrite (tail_after_slash_tap ns' name Hname Hslash), Hbare.
    + now apply is_empty_append.
    + rewrite no_newline_append, Hnsl. simpl. now rewrite Hnamel.
  - rewrite pkg_name_of_canonical.
    + unfold canonical_name, after_tap.
      destruct name as [|c t]; [discriminate|].
      simpl in Hrest. apply orb_false_iff in Hrest as [_ Ht].
      simpl String.append at 1. cbv iota beta.
      change (String c t +:+ String space flags)
        with (String c (t +:+ String space flags)).
      rewrite (tail_after_slash_none _ Ht).
      f_equal. exact Hflagged.
    + now apply is_empty_append.
    + exact Hrestl.
  - rewrite pkg_name_of_canonical.
    + unfold canonical_name, after_tap. destruct ns as [|c ns']; [discriminate|].
      simpl. rewrite (tail_after_slash_tap ns' _ (is_empty_append _ _ Hname) Hrest).
      f_equal. exact Hflagged.
    + now apply is_empty_append.
    + rewrite no_newline_append, Hnsl. simpl. now rewrite Hrestl.
Qed.

(** ** Name extraction on concrete targets *)

(** C4: the pattern maps ["tap/pkg --flag"], ["pkg"] and ["tap/pkg"] to
    ["pkg"]; on a target whose flags contain a slash it returns the text
    after that slash instead of the package name. *)
Theorem name_extraction_examples :
  pkg_name_of "tap/pkg --flag" = Some "pkg"
  /\ pkg_name_of "pkg" = Some "pkg"
  /\ pkg_name_of "tap/pkg" = Some "pkg"
  /\ pkg_name_of "vlc --appdir=/Applications" = Some "Applications".
Proof. repeat split; reflexivity. Qed.

(** ** The no-match branch *)

Section NoMatchBranch.
Context {H : Host}.

(** [_invoke_shell_command] logs nothing. *)
Lemma invoke_shell_logs_nothing (l : level) (cmd : string)
    (defaults : gmap string pyval) (w : World) :
  logged l (events (_invoke_shell_command cmd defaults w)) = [].
Proof.
  unfold _invoke_shell_command, getitem.
  destruct (defaults !! "stdin") as [v1|]; [|reflexivity]. rewrite bind_ret.
  destruct (defaults !! "stdout") as [v2|]; [|reflexivity]. rewrite bind_ret.
  destruct (defaults !! "stderr") as [v3|]; [|reflexivity]. rewrite bind_ret.
  unfold subprocess_call. now destruct (call_result _ w).
Qed.

(** Once the pattern has matched, [_install] logs no error. *)
Lemma install_matched_no_error (install_format check_format pkg : string)
    (defaults : gmap string pyval) (m : Re.Match) (w : World) :
  is_empty pkg = false ->
  Re.search pkg_pattern pkg = Some m ->
  logged Error (events (_install install_format check_format pkg defaults w))
  = [].
Proof.
  intros Hne Hs.
  destruct (format check_format [("pkg_name", group_text m)])
    as [check_cmd|e] eqn:Hf.
  2:{ unfold _install. rewrite Hne, Hs, Hf. reflexivity. }
  rewrite (install_matched _ _ _ _ _ _ _ Hne Hs Hf). cbv zeta.
  destruct (fst (call_result (check_call check_cmd) w)) as [code|e];
    [|reflexivity].
  destruct (code =? 0)%Z; [reflexivity|].
  cbn [events logged].
  destruct (format install_format [("pkg", pkg)]) as [install_cmd|e];
    [|reflexivity].
  cbn [lift]. rewrite bind_ret.
  set (w1 := snd (call_result (check_call check_cmd) w)).
  pose proof (invoke_shell_logs_nothing Error install_cmd defaults w1) as Hlog.
  destruct (value (_invoke_shell_command install_cmd defaults w1))
    as [status|e] eqn:Hv.
  - rewrite (bind_Return _ _ _ _ Hv). cbn [events]. rewrite logged_app, Hlog.
    now destruct (negb (0 =? status)%Z).
  - rewrite (bind_Raise _ _ _ _ Hv). exact Hlog.
Qed.
End NoMatchBranch.

(** C10, as worded, fails on a target that ends in a space: the
    extracted name keeps the space, since a flags suffix needs at least
    one character after its space.  It also fails when a space comes
    right after the last slash, since the name needs at least one
    character, and when the last slash ends the target or the only
    earlier slash starts it, since a tap prefix needs at least one
    character before its slash and the name at least one after it. *)
Lemma name_as_worded_fails :
  is_empty "a/b/c " = false
  /\ no_newline "a/b/c " = true
  /\ pkg_name_of "a/b/c " = Some "c "
  /\ name_as_worded "a/b/c " = "c"
  /\ pkg_name_of "a/b/c " <> Some (name_as_worded "a/b/c ")
  /\ (pkg_name_of "a/b/ c" = Some " c" /\ name_as_worded "a/b/ c" = "")
  /\ (pkg_name_of "a/b/" = Some "b/" /\ name_as_worded "a/b/" = "")
  /\ (pkg_name_of "/b/" = Some "/b/" /\ name_as_worded "/b/" = "").
Proof. repeat split; try reflexivity. vm_compute. discriminate. Qed.

(** C10, amended: on every non-empty target without a newline the
    pattern matches, so [_install] never takes its no-match branch (it
    logs no error); and on such a target in which no slash comes after a
    space, the extracted name is the text after the last slash that has
    at least one character on either side of it (the whole target when
    there is none), up to the first space after its first character
    that has at least one character after it (up to the end when there
    is none).  Nothing is said of the name of a target with a slash
    after a space. *)
Theorem pattern_matches_every_line (pkg : string) :
  is_empty pkg = false -> no_newline pkg = true ->
  (exists m, Re.search pkg_pattern pkg = Some m
             /\ (slash_after_space pkg = false ->
                 Re.group1 m = Some (canonical_name pkg)))
  /\ forall (H : Host) install_format check_format defaults w,
       logged Error
         (events (_install install_format check_format pkg defaults w)) = [].
Proof.
  intros Hne Hnl. destruct (search_pkg_pattern pkg Hne Hnl) as [q [Hs Hsub]].
  split.
  - eexists. split; [exact Hs|]. intros _.
    unfold Re.group1. cbn [Re.m_g1 Re.m_string].
    replace (q + String.length (canonical_name pkg) - q)
      with (String.length (canonical_name pkg)) by lia.
    now rewrite Hsub.
  - intros H install_format check_format defaults w.
    exact (install_matched_no_error _ _ _ _ _ w Hne Hs).
Qed.

(** ** The theorems at concrete inputs *)

Lemma install_skips_present_witness :
  let m := Re.MkMatch "tap/pkg --flag" (0, 14) (Some (4, 7)) in
  (is_empty "tap/pkg --flag" = false
   /\ Re.search pkg_pattern "tap/pkg --flag" = Some m
   /\ format brew_check_format [("pkg_name", group_text m)] = Return pkg_check
   /\ fst (@call_result example_host (@check_call example_host pkg_check)
             0%nat)
      = Return 0%Z)
  /\ (let r := @_install example_host brew_install_format brew_check_format
                 "tap/pkg --flag" brew_defaults 0%nat in
      value r = Return true
      /\ spawns (events r) = [@check_call example_host pkg_check]
      /\ final r
         = snd (@call_result example_host (@check_call example_host pkg_check)
                  0%nat)).
Proof.
  intros m. split.
  - repeat split; reflexivity.
  - apply (@install_skips_present example_host brew_install_format
             brew_check_format "tap/pkg --flag" brew_defaults m pkg_check
             0%nat); reflexivity.
Defined.

Lemma install_runs_when_absent_witness :
  let m := Re.MkMatch "missing" (0, 7) (Some (0, 7)) in
  let install_cmd := "/opt/homebrew/bin/brew install missing" in
  (is_empty "missing" = false
   /\ Re.search pkg_pattern "missing" = Some m
   /\ format brew_check_format [("pkg_name", group_text m)]
      = Return missing_check
   /\ fst (@call_result example_host (@check_call example_host missing_check)
             0%nat) = Return 1%Z
   /\ 1%Z <> 0%Z
   /\ format brew_install_format [("pkg", "missing")] = Return install_cmd
   /\ complete brew_defaults)
  /\ (let r := @_install example_host brew_install_format brew_check_format
                 "missing" brew_defaults 0%nat in
      let w1 := snd (@call_result example_host
                       (@check_call example_host missing_check) 0%nat) in
      let ins := fst (@call_result example_host
                        (@shell_call example_host brew_defaults install_cmd)
                        w1) in
      spawns (events r)
      = [@check_call example_host missing_check;
         @shell_call example_host brew_defaults install_cmd]
      /\ (value r = Return true <-> ins = Return 0%Z)
      /\ (forall status, ins = Return status -> status <> 0%Z ->
          value r = Return false
          /\ logged Warning (events r) = ["Failed to install [{pkg}]"])
      /\ (forall e, ins = Raise e -> value r = Raise e)).
Proof.
  intros m install_cmd.
  assert (Hd : complete brew_defaults).
  { repeat split; eexists; reflexivity. }
  assert (Hc : 1%Z <> 0%Z) by discriminate.
  split.
  - repeat split; try reflexivity; try exact Hc; apply Hd.
  - apply (@install_runs_when_absent example_host brew_install_format
             brew_check_format "missing" brew_defaults m missing_check
             install_cmd 0%nat 1%Z); try reflexivity; assumption.
Defined.


Lemma check_streams_discarded_witness :
  let c := @check_call example_host pkg_check in
  head (spawns (events (@_install example_host brew_install_format
                          brew_check_format "pkg" brew_defaults 0%nat)))
  = Some c
  /\ ((exists m, Re.search pkg_pattern "pkg" = Some m
                 /\ format brew_check_format [("pkg_name", group_text m)]
                    = Return (cmd c))
      /\ (c_stdin c = ArgFile os_devnull /\ c_stdout c = ArgFile os_devnull
          /\ c_stderr c = ArgFile os_devnull)
      /\ (discarded (child_endpoint (c_stdin c)) = true
          /\ discarded (child_endpoint (c_stdout c)) = true
          /\ discarded (child_endpoint (c_stderr c)) = true)
      /\ forall defaults',
           head (spawns (events
             (@_install example_host brew_install_format brew_check_format
                "pkg" defaults' 0%nat))) = Some c).
Proof.
  intros c.
  assert (Hc : head (spawns (events
                 (@_install example_host brew_install_format brew_check_format
                    "pkg" brew_defaults 0%nat))) = Some c) by reflexivity.
  split; [exact Hc|].
  exact (@check_streams_discarded example_host brew_install_format
           brew_check_format "pkg" brew_defaults 0%nat c Hc).
Defined.

Lemma install_brew_disabled_witness :
  truthy (PyBool false) = false
  /\ (let r := @_install_brew example_host (PyBool false)
                 (handle_defaults ∅ "install-brew") 0%nat in
      value r = Return false /\ spawns (events r) = [] /\ final r = 0%nat).
Proof.
  split; [reflexivity|].
  exact (@install_brew_disabled example_host (PyBool false)
           (handle_defaults ∅ "install-brew") 0%nat eq_refl).
Defined.


Lemma pattern_matches_every_line_witness :
  let pkg := "user/repo/pkg --HEAD" in
  (is_empty pkg = false /\ no_newline pkg = true
   /\ slash_after_space pkg = false)
  /\ (exists m, Re.search pkg_pattern pkg = Some m
                /\ Re.group1 m = Some (canonical_name pkg))
  /\ forall (H : Host) install_format check_format defaults w,
       logged Error
         (events (_install install_format check_format pkg defaults w))
       = [].
Proof.
  intros pkg. split; [repeat split; reflexivity|].
  destruct (pattern_matches_every_line pkg eq_refl eq_refl)
    as [[m [Hm Hg]] Hlog].
  split; [|exact Hlog]. exists m. split; [exact Hm | exact (Hg eq_refl)].
Defined.

(** A batch over three targets of which the second fails: the result
    is [False], and the third target is still checked. *)
Example batch_continues_after_failure :
  let r := @_brew example_host ["a"; "missing"; "c"] brew_defaults 0%nat in
  value r = Return false
  /\ map cmd (spawns (events r))
     = ["test -d /opt/homebrew/Cellar/a || /opt/homebrew/bin/brew ls --versions a";
        missing_check;
        "/opt/homebrew/bin/brew install missing";
        "test -d /opt/homebrew/Cellar/c || /opt/homebrew/bin/brew ls --versions c"]
  /\ canonical_name "user/repo/pkg --HEAD" = "pkg".
Proof. repeat split; reflexivity. Qed.


(** * Further properties *)

(** ** Every path through [_install] *)

Section InstallPaths.
Context {H : Host}.

(** The runs of [_install]: it fails on the target before calling
    anything; or the check template does not format; or the check is
    called and then the call raises, or the target is present, or the
    install step raises before its call, or the install command is
    called and succeeds, fails or raises. *)
Lemma install_paths (install_format check_format pkg : string)
    (defaults : gmap string pyval) (w : World) :
  let r := _install install_format check_format pkg defaults w in
  (exists msg, r = Result (Return false) w [Log Error msg])
  \/ (exists e, r = Result (Raise e) w [])
  \/ exists m check_cmd,
       let chk := check_call check_cmd in
       let w1 := snd (call_result chk w) in
       (Re.search pkg_pattern pkg = Some m
        /\ format check_format [("pkg_name", group_text m)] = Return check_cmd)
       /\
       ((exists e, r = Result (Raise e) w1 [Spawn chk])
       \/ r = Result (Return true) w1
                [Spawn chk; Log Debug (pkg +:+ " already installed")]
       \/ (exists e, r = Result (Raise e) w1
                           [Spawn chk; Log Info ("Installing " +:+ pkg)])
       \/ exists install_cmd,
            let ins := shell_call defaults install_cmd in
            let w2 := snd (call_result ins w1) in
            format install_format [("pkg", pkg)] = Return install_cmd
            /\ (r = Result (Return true) w2
                      [Spawn chk; Log Info ("Installing " +:+ pkg); Spawn ins]
                \/ r = Result (Return false) w2
                         [Spawn chk; Log Info ("Installing " +:+ pkg);
                          Spawn ins; Log Warning "Failed to install [{pkg}]"]
                \/ exists e,
                     r = Result (Raise e) w2
                           [Spawn chk; Log Info ("Installing " +:+ pkg);
                            Spawn ins])).
Proof.
  cbv zeta.
  destruct (is_empty pkg) eqn:Hne.
  { left. eexists. unfold _install. rewrite Hne. reflexivity. }
  destruct (Re.search pkg_pattern pkg) as [m|] eqn:Hs.
  2:{ left. eexists. unfold _install. rewrite Hne, Hs. reflexivity. }
  destruct (format check_format [("pkg_name", group_text m)])
    as [check_cmd|e] eqn:Hf.
  2:{ right. left. exists e. unfold _install. rewrite Hne, Hs, Hf.
      reflexivity. }
  right. right. exists m, check_cmd. split; [now split|].
  destruct (fst (call_result (check_call check_cmd) w)) as [code|e] eqn:Hcode.
  2:{ left. exists e. rewrite (install_matched _ _ _ _ _ _ _ Hne Hs Hf).
      cbv zeta. now rewrite Hcode. }
  right.
  destruct (code =? 0)%Z eqn:Hc.
  { left. rewrite (install_matched _ _ _ _ _ _ _ Hne Hs Hf). cbv zeta.
    now rewrite Hcode, Hc. }
  right.
  destruct (format install_format [("pkg", pkg)]) as [install_cmd|e] eqn:Hi.
  2:{ left. exists e. rewrite (install_matched _ _ _ _ _ _ _ Hne Hs Hf).
      cbv zeta. rewrite Hcode, Hc, Hi. reflexivity. }
  destruct (decide (is_Some (defaults !! "stdin")
                    /\ is_Some (defaults !! "stdout")
                    /\ is_Some (defaults !! "stderr"))) as [Hd|Hd].
  - right. exists install_cmd. split; [reflexivity|].
    rewrite (install_absent _ _ _ _ _ _ _ _ _ Hne Hs Hf Hcode Hc Hi Hd).
    cbv zeta.
    destruct (fst (call_result (shell_call defaults install_cmd) _))
      as [status|e].
    + destruct (0 =? status)%Z; [now left | right; now left].
    + right. right. now exists e.
  - left. rewrite (install_matched _ _ _ _ _ _ _ Hne Hs Hf). cbv zeta.
    rewrite Hcode, Hc, Hi. cbn [lift]. rewrite bind_ret.
    destruct (invoke_shell_incomplete install_cmd defaults
                (snd (call_result (check_call check_cmd) w)) Hd) as [key Hk].
    exists (KeyError key).
    rewrite (bind_Raise _ _ _ _ (f_equal value Hk)), Hk. reflexivity.
Qed.

(** X3: [_install] never calls more than two subprocesses, and never
    the install command without the check before it: it calls nothing,
    or the check alone, or the check and then the install command.  The
    check is the check template formatted with the name extracted from
    the target, with its streams on the null device; the install command
    is the install template formatted with the whole target, under the
    caller's switches. *)
Theorem install_spawns_at_most_two (install_format check_format pkg : string)
    (defaults : gmap string pyval) (w : World) :
  let cs := spawns (events (_install install_format check_format pkg
                              defaults w)) in
  cs = []
  \/ exists m check_cmd,
       Re.search pkg_pattern pkg = Some m
       /\ group_text m = canonical_name (chomp pkg)
       /\ format check_format [("pkg_name", group_text m)] = Return check_cmd
       /\ (cs = [check_call check_cmd]
           \/ exists install_cmd,
                format install_format [("pkg", pkg)] = Return install_cmd
                /\ cs = [check_call check_cmd;
                         shell_call defaults install_cmd]).
Proof.
  cbv zeta.
  destruct (install_paths install_format check_format pkg defaults w)
    as [[msg ->] | [[e ->] | [m [cc [[Hm Hf] Hr]]]]];
    [now left | now left |].
  right. exists m, cc.
  split; [exact Hm|]. split; [exact (search_Some_name pkg m Hm)|].
  split; [exact Hf|].
  destruct Hr as [[e ->] | [-> | [[e ->] | [ic [Hi [-> | [-> | [e ->]]]]]]]];
    cbn [events spawns]; eauto.
Qed.

(** X4: [_install] never fails silently and never complains when it
    succeeds: when it returns [False] it has logged an error or a
    warning, and when it returns [True] it has logged neither. *)
Theorem install_reports_failure (install_format check_format pkg : string)
    (defaults : gmap string pyval) (w : World) :
  let r := _install install_format check_format pkg defaults w in
  (value r = Return false ->
   logged Error (events r) <> [] \/ logged Warning (events r) <> [])
  /\ (value r = Return true ->
      logged Error (events r) = [] /\ logged Warning (events r) = []).
Proof.
  cbv zeta.
  destruct (install_paths install_format check_format pkg defaults w)
    as [[msg ->] | [[e ->] | [m [cc [_ Hr]]]]].
  - cbn [value events logged]. split; intros Hv; [|discriminate].
    left. discriminate.
  - cbn [value]. split; discriminate.
  - destruct Hr as [[e ->] | [-> | [[e ->] | [ic [Hi [-> | [-> | [e ->]]]]]]]];
      cbn [value events logged]; split; intros Hv; try discriminate;
      try (split; reflexivity).
    right. discriminate.
Qed.
End InstallPaths.

(** ** The commands of [_brew] and [_cask] *)

Section BatchCommands.
Context {H : Host}.

Lemma batch_wrap_spawns (loop : M bool) (summary : string) (w : World) :
  spawns (events
    ((let* result := loop in
      let* _ := if result then log Info summary else ret tt in
      ret result) w))
  = spawns (events (loop w)).
Proof.
  destruct (value (loop w)) as [b|e] eqn:Hv.
  - now destruct (batch_wrap loop summary w b Hv) as [_ [_ Hs]].
  - now rewrite (bind_Raise loop _ w e Hv).
Qed.

(** Every subprocess of [install_each] is a subprocess of [_install] on
    one of the targets. *)
Lemma install_each_spawns (install_format check_format : string)
    (defaults : gmap string pyval) (c : call) (targets : list string) :
  forall w,
    In c (spawns (events
           (install_each install_format check_format targets defaults w))) ->
    exists pkg w', In pkg targets
      /\ In c (spawns (events
                (_install install_format check_format pkg defaults w'))).
Proof.
  induction targets as [|pkg targets IH]; intros w Hc; [destruct Hc|].
  cbn [install_each] in Hc.
  set (i := _install install_format check_format pkg defaults) in *.
  destruct (value (i w)) as [b|e] eqn:Hi.
  - rewrite (bind_Return i _ w b Hi) in Hc. cbn [events] in Hc.
    rewrite spawns_app in Hc. apply in_app_or in Hc as [Hc|Hc].
    + exists pkg, w. split; [now left | exact Hc].
    + destruct (value (install_each install_format check_format targets
                         defaults (final (i w)))) as [rs|e] eqn:He.
      * rewrite (bind_Return _ _ _ rs He) in Hc. cbn [events ret] in Hc.
        rewrite app_nil_r in Hc.
        destruct (IH _ Hc) as [pkg' [w' [Hin Hc']]].
        exists pkg', w'. split; [now right | exact Hc'].
      * rewrite (bind_Raise _ _ _ e He) in Hc. cbn [events] in Hc.
        destruct (IH _ Hc) as [pkg' [w' [Hin Hc']]].
        exists pkg', w'. split; [now right | exact Hc'].
  - rewrite (bind_Raise i _ w e Hi) in Hc. cbn [events] in Hc.
    exists pkg, w. split; [now left | exact Hc].
Qed.

(** The subprocesses of [_install] under given templates are among the
    check, on the name extracted from the target, and the install
    command, on the whole target. *)
Lemma install_spawns_in (install_format check_format pkg : string)
    (defaults : gmap string pyval) (w : World) (c : call) :
  In c (spawns (events (_install install_format check_format pkg defaults w)))
  ->
  (exists check_cmd,
     format check_format [("pkg_name", canonical_name (chomp pkg))]
     = Return check_cmd /\ c = check_call check_cmd)
  \/ (exists install_cmd,
        format install_format [("pkg", pkg)] = Return install_cmd
        /\ c = shell_call defaults install_cmd).
Proof.
  destruct (install_paths install_format check_format pkg defaults w)
    as [[msg ->] | [[e ->] | [m [cc [[Hm Hf] Hr]]]]];
    cbn [events spawns]; try (intros []).
  rewrite (search_Some_name pkg m Hm) in Hf.
  destruct Hr as [[e ->] | [-> | [[e ->] | [ic [Hi [-> | [-> | [e ->]]]]]]]];
    cbn [events spawns In]; intros Hc;
    repeat (destruct Hc as [<- | Hc]; [eauto|]); destruct Hc.
Qed.

(** X5: the only commands [_brew] runs are, for a target of the list,
    the check of the Cellar directory and of [brew ls --versions] on the
    name extracted from the target, with the three streams on the null
    device, and [brew install] followed by the whole target, with the
    streams the switches select; [_cask] likewise with the Caskroom
    directory and the [--cask] commands. *)
Theorem batch_commands (packages : list string) (defaults : gmap string pyval)
    (w : World) (c : call) :
  (In c (spawns (events (_brew packages defaults w))) ->
   exists pkg, In pkg packages
     /\ (c = check_call (brew_check_of (chomp pkg))
         \/ c = shell_call defaults ("/opt/homebrew/bin/brew install " +:+ pkg)))
  /\ (In c (spawns (events (_cask packages defaults w))) ->
      exists pkg, In pkg packages
        /\ (c = check_call (cask_check_of (chomp pkg))
            \/ c = shell_call defaults
                     ("/opt/homebrew/bin/brew install --cask " +:+ pkg))).
Proof.
  split; intros Hc.
  - unfold _brew in Hc. rewrite batch_wrap_spawns in Hc.
    destruct (batch_loop brew_install_format brew_check_format defaults
                packages true w) as [_ [Hs _]].
    rewrite Hs in Hc. apply install_each_spawns in Hc as [pkg [w' [Hin Hc]]].
    exists pkg. split; [exact Hin|].
    apply install_spawns_in in Hc as [[cc [Hf ->]] | [ic [Hf ->]]].
    + left. rewrite brew_check_cmd in Hf. now injection Hf as <-.
    + right. rewrite brew_install_cmd in Hf. now injection Hf as <-.
  - unfold _cask in Hc. rewrite batch_wrap_spawns in Hc.
    destruct (batch_loop cask_install_format cask_check_format defaults
                packages true w) as [_ [Hs _]].
    rewrite Hs in Hc. apply install_each_spawns in Hc as [pkg [w' [Hin Hc]]].
    exists pkg. split; [exact Hin|].
    apply install_spawns_in in Hc as [[cc [Hf ->]] | [ic [Hf ->]]].
    + left. rewrite cask_check_cmd in Hf. now injection Hf as <-.
    + right. rewrite cask_install_cmd in Hf. now injection Hf as <-.
Qed.
End BatchCommands.

Lemma batch_commands_witness :
  let c1 := @check_call example_host (brew_check_of "tap/a --HEAD") in
  let c2 := @shell_call example_host brew_defaults
              "/opt/homebrew/bin/brew install --cask missing" in
  (In c1 (spawns (events (@_brew example_host ["tap/a --HEAD"; "missing"]
                            brew_defaults 0%nat)))
   /\ exists pkg, In pkg ["tap/a --HEAD"; "missing"]
        /\ (c1 = @check_call example_host (brew_check_of (chomp pkg))
            \/ c1 = @shell_call example_host brew_defaults
                      ("/opt/homebrew/bin/brew install " +:+ pkg)))
  /\ (In c2 (spawns (events (@_cask example_host ["tap/a --HEAD"; "missing"]
                               brew_defaults 0%nat)))
      /\ exists pkg, In pkg ["tap/a --HEAD"; "missing"]
           /\ (c2 = @check_call example_host (cask_check_of (chomp pkg))
               \/ c2 = @shell_call example_host brew_defaults
                         ("/opt/homebrew/bin/brew install --cask " +:+ pkg))).
Proof.
  intros c1 c2.
  assert (H1 : In c1 (spawns (events (@_brew example_host
                 ["tap/a --HEAD"; "missing"] brew_defaults 0%nat)))).
  { vm_compute. left. reflexivity. }
  assert (H2 : In c2 (spawns (events (@_cask example_host
                 ["tap/a --HEAD"; "missing"] brew_defaults 0%nat)))).
  { vm_compute. right. right. left. reflexivity. }
  split; (split; [assumption|]).
  - exact (proj1 (@batch_commands example_host ["tap/a --HEAD"; "missing"]
                    brew_defaults 0%nat c1) H1).
  - exact (proj2 (@batch_commands example_host ["tap/a --HEAD"; "missing"]
                    brew_defaults 0%nat c2) H2).
Defined.

(** ** [_brewfile] *)

Section Brewfile.
Context {H : Host}.



End Brewfile.


(** ** [_install_brew] with the toggle on *)

Lemma install_brew_templates :
  Re.search pkg_pattern "brew" = Some (Re.MkMatch "brew" (0, 4) (Some (0, 4)))
  /\ (forall name,
        format brew_present_check [("pkg_name", name)]
        = Return brew_present_check)
  /\ (forall pkg,
        format install_brew_cmd [("pkg", pkg)] = Return install_brew_cmd).
Proof. repeat split. Qed.

(** X7: with a truthy toggle [_install_brew] first asks, on the null
    device, whether [/opt/homebrew/bin/brew] is there.  If that exits
    with status 0 it returns [True] and the installer is never run;
    otherwise it runs the [bash -c "$(curl ...)"] installer as it
    stands, under the caller's switches, and returns [True] exactly when
    the installer exits with status 0.  What either call raises comes
    out of [_install_brew]. *)
Theorem install_brew_enabled {H : Host} (val : pyval)
    (defaults : gmap string pyval) (w : World) :
  truthy val = true -> complete defaults ->
  let chk := check_call brew_present_check in
  let ins := shell_call defaults install_brew_cmd in
  let w1 := snd (call_result chk w) in
  let r := _install_brew val defaults w in
  match fst (call_result chk w) with
  | Return code =>
      if (code =? 0)%Z then
        value r = Return true /\ spawns (events r) = [chk] /\ final r = w1
      else
        value r = match fst (call_result ins w1) with
                  | Return status => Return (0 =? status)%Z
                  | Raise e => Raise e
                  end
        /\ spawns (events r) = [chk; ins]
        /\ final r = snd (call_result ins w1)
  | Raise e =>
      value r = Raise e /\ spawns (events r) = [chk] /\ final r = w1
  end.
Proof.
  intros Hv Hd. cbv zeta. unfold _install_brew. rewrite Hv. cbn [negb].
  destruct install_brew_templates as [Hs [Hchk Hins]].
  fold brew_present_check.
  destruct (fst (call_result (check_call brew_present_check) w))
    as [code|e] eqn:Hcode.
  - destruct (code =? 0)%Z eqn:Hc.
    + rewrite (install_matched _ _ "brew" _ _ _ w eq_refl Hs (Hchk _)).
      cbv zeta. rewrite Hcode, Hc. cbn. auto.
    + rewrite (install_absent _ _ "brew" _ _ _ _ w code eq_refl Hs (Hchk _)
                 Hcode Hc (Hins _) Hd).
      cbv zeta.
      destruct (fst (call_result (shell_call defaults install_brew_cmd) _))
        as [status|e].
      * cbn [value final events spawns]. repeat split.
        now destruct (negb _).
      * cbn. auto.
  - rewrite (install_matched _ _ "brew" _ _ _ w eq_refl Hs (Hchk _)).
    cbv zeta. rewrite Hcode. cbn. auto.
Qed.

Lemma install_brew_enabled_witness :
  let defaults := handle_defaults ∅ "install-brew" in
  let chk := @check_call fresh_host brew_present_check in
  let ins := @shell_call fresh_host defaults install_brew_cmd in
  (truthy (PyBool true) = true /\ complete defaults)
  /\ (let w1 := snd (@call_result fresh_host chk 0%nat) in
      let r := @_install_brew fresh_host (PyBool true) defaults 0%nat in
      match fst (@call_result fresh_host chk 0%nat) with
      | Return code =>
          if (code =? 0)%Z then
            value r = Return true /\ spawns (events r) = [chk] /\ final r = w1
          else
            value r = match fst (@call_result fresh_host ins w1) with
                      | Return status => Return (0 =? status)%Z
                      | Raise e => Raise e
                      end
            /\ spawns (events r) = [chk; ins]
            /\ final r = snd (@call_result fresh_host ins w1)
      | Raise e =>
          value r = Raise e /\ spawns (events r) = [chk] /\ final r = w1
      end).
Proof.
  intros defaults chk ins.
  assert (Hd : complete defaults).
  { repeat split; eexists; reflexivity. }
  split; [split; [reflexivity | exact Hd]|].
  exact (@install_brew_enabled fresh_host (PyBool true) defaults 0%nat
           eq_refl Hd).
Defined.

(** ** [_invoke_shell_command] *)

(** X8: when the options lack one of the three switches,
    [_invoke_shell_command] raises [KeyError] for a switch that is
    missing, before any subprocess is spawned. *)
Theorem invoke_shell_missing_switch {H : Host} (cmd : string)
    (defaults : gmap string pyval) (w : World) :
  ~ complete defaults ->
  exists key,
    In key switch_names /\ defaults !! key = None
    /\ _invoke_shell_command cmd defaults w = Result (Raise (KeyError key)) w [].
Proof.
  intros Hn. unfold _invoke_shell_command, getitem, switch_names.
  destruct (defaults !! "stdin") as [v1|] eqn:H1.
  2:{ exists "stdin". cbn. auto. }
  destruct (defaults !! "stdout") as [v2|] eqn:H2.
  2:{ exists "stdout". cbn. auto. }
  destruct (defaults !! "stderr") as [v3|] eqn:H3.
  2:{ exists "stderr". cbn. auto 6. }
  exfalso. apply Hn. unfold complete. rewrite H1, H2, H3. eauto.
Qed.

Lemma invoke_shell_missing_switch_witness :
  let defaults : gmap string pyval :=
    {[ "stdin" := PyBool true; "stderr" := PyBool false ]} in
  ~ complete defaults
  /\ exists key,
       In key switch_names /\ defaults !! key = None
       /\ @_invoke_shell_command example_host "brew update" defaults 0%nat
          = Result (Raise (KeyError key)) 0%nat [].
Proof.
  intros defaults.
  assert (Hn : ~ complete defaults).
  { intros [_ [[v Hv] _]]. vm_compute in Hv. discriminate. }
  split; [exact Hn|].
  exact (@invoke_shell_missing_switch example_host "brew update" defaults
           0%nat Hn).
Defined.

(** X9: with the three switches present, [_invoke_shell_command] makes
    exactly one call of [subprocess.call], through the shell, in the
    base directory, with the command text as given, and returns the exit
    status that call returns, or raises what it raises; each of the
    child's streams is on the null device exactly when its own switch is
    falsy. *)
Theorem invoke_shell_call {H : Host} (command : string)
    (defaults : gmap string pyval) (w : World) (stdin stdout stderr : pyval) :
  defaults !! "stdin" = Some stdin ->
  defaults !! "stdout" = Some stdout ->
  defaults !! "stderr" = Some stderr ->
  let r := _invoke_shell_command command defaults w in
  exists c,
    events r = [Spawn c]
    /\ value r = fst (call_result c w) /\ final r = snd (call_result c w)
    /\ (cmd c = command /\ shell c = true /\ cwd c = base_directory)
    /\ discarded (child_endpoint (c_stdin c)) = negb (truthy stdin)
    /\ discarded (child_endpoint (c_stdout c)) = negb (truthy stdout)
    /\ discarded (child_endpoint (c_stderr c)) = negb (truthy stderr).
Proof.
  intros H1 H2 H3. cbv zeta. exists (shell_call defaults command).
  rewrite invoke_shell_complete by (unfold complete; rewrite H1, H2, H3; eauto).
  cbn [events value final].
  split; [reflexivity|]. split; [reflexivity|]. split; [reflexivity|].
  unfold shell_call. cbn [cmd shell cwd c_stdin c_stdout c_stderr].
  rewrite H1, H2, H3, !switch_endpoint.
  repeat split; [destruct (truthy stdin) | destruct (truthy stdout)
                 | destruct (truthy stderr)]; reflexivity.
Qed.

Lemma invoke_shell_call_witness :
  let defaults : gmap string pyval :=
    {[ "stdin" := PyBool false; "stdout" := PyStr "yes"; "stderr" := PyNone ]} in
  (defaults !! "stdin" = Some (PyBool false)
   /\ defaults !! "stdout" = Some (PyStr "yes")
   /\ defaults !! "stderr" = Some PyNone)
  /\ (let r := @_invoke_shell_command example_host "brew update" defaults
                 0%nat in
      exists c,
        events r = [Spawn c]
        /\ value r = fst (@call_result example_host c 0%nat)
        /\ final r = snd (@call_result example_host c 0%nat)
        /\ (cmd c = "brew update" /\ shell c = true
            /\ cwd c = @base_directory example_host)
        /\ discarded (child_endpoint (c_stdin c)) = negb (truthy (PyBool false))
        /\ discarded (child_endpoint (c_stdout c)) = negb (truthy (PyStr "yes"))
        /\ discarded (child_endpoint (c_stderr c)) = negb (truthy PyNone)).
Proof.
  intros defaults. split; [repeat split; reflexivity|].
  exact (@invoke_shell_call example_host "brew update" defaults 0%nat
           (PyBool false) (PyStr "yes") PyNone eq_refl eq_refl eq_refl).
Defined.

(** ** [handle] *)

(** X10: the options [handle] passes on.  For a directive the plugin
    handles, each of the three switches is the user's value for it when
    the user's defaults for that directive give one, and otherwise the
    built-in one: [True] for [brewfile] and [install-brew], [False] for
    [brew], [cask] and [tap]. *)
Theorem handle_defaults_switch
    (context_defaults : gmap string (gmap string pyval))
    (directive key : string) :
  can_handle directive = true -> In key switch_names ->
  let user_defaults := default ∅ (context_defaults !! directive) in
  handle_defaults context_defaults directive !! key
  = Some (default (PyBool (builtin_switch directive)) (user_defaults !! key)).
Proof.
  intros Hc Hk. cbv zeta. unfold handle_defaults. rewrite lookup_union.
  destruct (default ∅ (context_defaults !! directive) !! key) as [v|].
  { now destruct (default ∅ (_defaults !! directive) !! key). }
  cbn [default]. rewrite (left_id None _).
  unfold can_handle, directives in Hc. cbn [existsb] in Hc.
  unfold switch_names in Hk. cbn [In] in Hk.
  repeat (apply orb_true_iff in Hc as [Hc|Hc];
          [apply String.eqb_eq in Hc; subst directive;
           destruct Hk as [<- | [<- | [<- | []]]]; reflexivity|]).
  discriminate.
Qed.

Lemma handle_defaults_switch_witness :
  let context_defaults : gmap string (gmap string pyval) :=
    {[ "brew" := {[ "stdout" := PyBool true ]} ]} in
  (can_handle "brew" = true /\ In "stdout" switch_names
   /\ In "stderr" switch_names)
  /\ handle_defaults context_defaults "brew" !! "stdout"
     = Some (default (PyBool (builtin_switch "brew"))
               (default ∅ (context_defaults !! "brew") !! "stdout"))
  /\ handle_defaults context_defaults "brew" !! "stderr"
     = Some (default (PyBool (builtin_switch "brew"))
               (default ∅ (context_defaults !! "brew") !! "stderr")).
Proof.
  intros context_defaults.
  assert (H1 : In "stdout" switch_names) by (right; left; reflexivity).
  assert (H2 : In "stderr" switch_names) by (right; right; left; reflexivity).
  split; [repeat split; assumption|]. split.
  - exact (handle_defaults_switch context_defaults "brew" "stdout" eq_refl H1).
  - exact (handle_defaults_switch context_defaults "brew" "stderr" eq_refl H2).
Defined.

Section HandleFacts.
Context {H : Host}.

Lemma directives_unknown (directive : string) :
  can_handle directive = false -> _directives !! directive = None.
Proof.
  unfold can_handle, directives. cbn [existsb]. intros Hc.
  repeat (apply orb_false_iff in Hc as [?%String.eqb_neq Hc]).
  unfold _directives.
  rewrite !lookup_insert_ne by congruence.
  now rewrite lookup_singleton_ne by congruence.
Qed.

(** X11: [handle] on a directive [can_handle] refuses raises
    [KeyError] for that directive; nothing is spawned or logged. *)
Theorem handle_unknown (context_defaults : gmap string (gmap string pyval))
    (directive : string) (data : pydata) (w : World) :
  can_handle directive = false ->
  handle context_defaults directive data w
  = Result (Raise (KeyError directive)) w [].
Proof.
  intros Hc. unfold handle. now rewrite (directives_unknown directive Hc).
Qed.
End HandleFacts.

Lemma handle_unknown_witness :
  can_handle "shell" = false
  /\ @handle example_host ∅ "shell" (Items ["echo hi"]) 0%nat
     = Result (Raise (KeyError "shell")) 0%nat [].
Proof.
  split; [reflexivity|].
  exact (@handle_unknown example_host ∅ "shell" (Items ["echo hi"]) 0%nat
           eq_refl).
Defined.

(** ** Exceptions and log lines of the batches *)

Section BatchLogs.
Context {H : Host}.

Lemma batch_raise_first (install_format check_format summary pkg : string)
    (packages : list string) (defaults : gmap string pyval) (w : World)
    (e : exn) :
  let i := _install install_format check_format pkg defaults w in
  value i = Raise e ->
  (let* result :=
     for_each (pkg :: packages)
       (fun pkg result =>
          let* run := _install install_format check_format pkg defaults in
          if negb run then
            let* _ := log Error "Some packages were not installed" in
            ret false
          else ret result)
       true in
   let* _ := if result then log Info summary else ret tt in
   ret result) w
  = Result (Raise e) (final i) (events i).
Proof.
  intros i Hi. subst i. cbn [for_each].
  set (i := _install install_format check_format pkg defaults) in *.
  assert (Hbody :
    (let* run := i in
     if negb run then
       let* _ := log Error "Some packages were not installed" in ret false
     else ret true) w
    = Result (Raise e) (final (i w)) (events (i w))).
  { now rewrite (bind_Raise i _ w e Hi). }
  assert (Hloop :
    (let* x :=
       (let* run := i in
        if negb run then
          let* _ := log Error "Some packages were not installed" in ret false
        else ret true) in
     for_each packages
       (fun pkg result =>
          let* run := _install install_format check_format pkg defaults in
          if negb run then
            let* _ := log Error "Some packages were not installed" in
            ret false
          else ret result) x) w
    = Result (Raise e) (final (i w)) (events (i w))).
  { now rewrite (bind_Raise _ _ w e (f_equal value Hbody)), Hbody. }
  now rewrite (bind_Raise _ _ w e (f_equal value Hloop)), Hloop.
Qed.

(** X13: [_brew] and [_cask] do not catch what [_install] raises: when
    [_install] raises on the first target, the batch raises the same
    exception with nothing done beyond what [_install] did on that
    target; the targets after it are not processed. *)
Theorem batch_does_not_catch (pkg : string) (packages : list string)
    (defaults : gmap string pyval) (w : World) (e : exn) :
  (let i := _install brew_install_format brew_check_format pkg defaults w in
   value i = Raise e ->
   _brew (pkg :: packages) defaults w = Result (Raise e) (final i) (events i))
  /\ (let i := _install cask_install_format cask_check_format pkg defaults w in
      value i = Raise e ->
      _cask (pkg :: packages) defaults w
      = Result (Raise e) (final i) (events i)).
Proof.
  split; cbv zeta; intros Hi.
  - exact (batch_raise_first _ _ _ pkg packages defaults w e Hi).
  - exact (batch_raise_first _ _ _ pkg packages defaults w e Hi).
Qed.

(** The lines [_install] logs at the levels the batches use. *)
Lemma install_log_lines (install_format check_format pkg : string)
    (defaults : gmap string pyval) (w : World) :
  let r := _install install_format check_format pkg defaults w in
  (value r = Return true -> logged Error (events r) = [])
  /\ (logged Info (events r) = []
      \/ logged Info (events r) = ["Installing " +:+ pkg]).
Proof.
  cbv zeta.
  destruct (install_paths install_format check_format pkg defaults w)
    as [[msg ->] | [[e ->] | [m [cc [_ Hr]]]]];
    [cbn [value events logged]; split; auto; discriminate ..|].
  destruct Hr as [[e ->] | [-> | [[e ->] | [ic [Hi [-> | [-> | [e ->]]]]]]]];
    cbn [value events logged]; split; auto; try discriminate.
Qed.

(** The loop of [_brew] and [_cask] never logs the summary line, also
    when it ends in an exception. *)
Lemma batch_loop_never_summary (install_format check_format summary : string)
    (defaults : gmap string pyval) (packages : list string) :
  (forall pkg, summary <> "Installing " +:+ pkg) ->
  forall (acc : bool) (w : World),
    ~ In summary
        (logged Info
           (events
              (for_each packages
                 (fun pkg result =>
                    let* run :=
                      _install install_format check_format pkg defaults in
                    if negb run then
                      let* _ :=
                        log Error "Some packages were not installed" in
                      ret false
                    else ret result)
                 acc w))).
Proof.
  intros Hsum. induction packages as [|pkg packages IH]; intros acc w.
  - cbn. auto.
  - cbn [for_each].
    set (i := _install install_format check_format pkg defaults).
    destruct (install_log_lines install_format check_format pkg defaults w)
      as [_ Hinfo]. fold i in Hinfo.
    assert (Hi_info : ~ In summary (logged Info (events (i w)))).
    { intros Hin. destruct Hinfo as [Hinfo|Hinfo]; rewrite Hinfo in Hin;
        [destruct Hin|].
      destruct Hin as [Hin|[]]. now apply (Hsum pkg). }
    destruct (value (i w)) as [run|x] eqn:Hi.
    + assert (Hbody :
        (let* run := i in
         if negb run then
           let* _ := log Error "Some packages were not installed" in ret false
         else ret acc) w
        = Result (Return (if negb run then false else acc)) (final (i w))
            (events (i w)
             ++ (if negb run
                 then [Log Error "Some packages were not installed"]
                 else []))).
      { rewrite (bind_Return i _ w run Hi). now destruct run. }
      rewrite (bind_Return _ _ w _ (f_equal value Hbody)), Hbody.
      cbn [value final events]. rewrite !logged_app. intros Hin.
      apply in_app_or in Hin as [Hin|Hin]; [|exact (IH _ _ Hin)].
      apply in_app_or in Hin as [Hin|Hin]; [exact (Hi_info Hin)|].
      now destruct run.
    + assert (Hbody :
        (let* run := i in
         if negb run then
           let* _ := log Error "Some packages were not installed" in ret false
         else ret acc) w
        = Result (Raise x) (final (i w)) (events (i w))).
      { now rewrite (bind_Raise i _ w x Hi). }
      rewrite (bind_Raise _ _ w x (f_equal value Hbody)), Hbody.
      exact Hi_info.
Qed.

(** The log lines of the loop of [_brew] and [_cask], with its flag
    starting at [acc], when it returns. *)
Lemma batch_loop_logs (install_format check_format : string)
    (defaults : gmap string pyval) (packages : list string) :
  forall (acc : bool) (w : World) (b : bool),
    let r :=
      for_each packages
        (fun pkg result =>
           let* run := _install install_format check_format pkg defaults in
           if negb run then
             let* _ := log Error "Some packages were not installed" in
             ret false
           else ret result)
        acc w in
    value r = Return b ->
    (b = true -> acc = true /\ logged Error (events r) = [])
    /\ (b = false ->
        acc = false
        \/ In "Some packages were not installed" (logged Error (events r))).
Proof.
  induction packages as [|pkg packages IH]; intros acc w b.
  - cbn. intros [= <-]. repeat split; auto.
  - cbv zeta. cbn [for_each].
    set (i := _install install_format check_format pkg defaults).
    destruct (install_log_lines install_format check_format pkg defaults w)
      as [Herr _]. fold i in Herr.
    destruct (value (i w)) as [run|x] eqn:Hi.
    2:{ rewrite (bind_Raise _ _ w x); [discriminate|].
        now rewrite (bind_Raise i _ w x Hi). }
    assert (Hbody :
      (let* run := i in
       if negb run then
         let* _ := log Error "Some packages were not installed" in ret false
       else ret acc) w
      = Result (Return (if negb run then false else acc)) (final (i w))
          (events (i w)
           ++ (if negb run
               then [Log Error "Some packages were not installed"]
               else []))).
    { rewrite (bind_Return i _ w run Hi). now destruct run. }
    rewrite (bind_Return _ _ w _ (f_equal value Hbody)), Hbody.
    cbn [value final events]. intros Hv.
    specialize (IH (if negb run then false else acc) (final (i w)) b Hv).
    cbv zeta in IH. destruct IH as [IHt IHf].
    rewrite !logged_app. split.
    + intros Hb. destruct (IHt Hb) as [Hacc Hlog]. rewrite Hlog.
      destruct run; [|discriminate]. cbn [negb] in Hacc.
      rewrite (Herr eq_refl). now split.
    + intros Hb. destruct (IHf Hb) as [Hacc|Hin].
      * destruct run; [now left|]. right. apply in_or_app. left.
        apply in_or_app. right. now left.
      * right. apply in_or_app. now right.
Qed.

Lemma batch_logs (install_format check_format summary : string)
    (defaults : gmap string pyval) (packages : list string) (w : World) :
  (forall pkg, summary <> "Installing " +:+ pkg) ->
  let r :=
    (let* result :=
       for_each packages
         (fun pkg result =>
            let* run := _install install_format check_format pkg defaults in
            if negb run then
              let* _ := log Error "Some packages were not installed" in
              ret false
            else ret result)
         true in
     let* _ := if result then log Info summary else ret tt in
     ret result) w in
  (In summary (logged Info (events r)) <-> value r = Return true)
  /\ (value r = Return true -> logged Error (events r) = [])
  /\ (value r = Return false ->
      In "Some packages were not installed" (logged Error (events r))).
Proof.
  intros Hsum. cbv zeta.
  pose proof (batch_loop_never_summary install_format check_format summary
                defaults packages Hsum true w) as Hno.
  pose proof (batch_loop_logs install_format check_format defaults packages
                true w) as Hlogs.
  cbv zeta in Hlogs.
  set (loop := for_each packages _ true) in *.
  destruct (value (loop w)) as [b|x] eqn:Hv.
  2:{ rewrite (bind_Raise loop _ w x Hv). cbn [value events].
      split; [split; [intros Hin; now destruct (Hno Hin) | discriminate]|].
      split; discriminate. }
  destruct (Hlogs b eq_refl) as [Ht Hf].
  rewrite (bind_Return loop _ w b Hv). cbn [value final events].
  rewrite !logged_app.
  destruct b; cbn [bind log ret value final events logged app].
  - destruct (Ht eq_refl) as [_ Hlog]. rewrite Hlog.
    split; [split; [reflexivity|]|split; [reflexivity | discriminate]].
    intros _. apply in_or_app. right. now left.
  - rewrite !app_nil_r.
    split; [split; [intros Hin; now destruct (Hno Hin) | discriminate]|].
    split; [discriminate|]. intros _.
    destruct (Hf eq_refl) as [Hacc|Hin]; [discriminate | exact Hin].
Qed.

(** X14: [_brew] logs "All brew packages have been installed" exactly
    when it returns [True]: not when it returns [False] and not when it
    ends in an exception.  When it returns [True] it has logged no
    error; when it returns [False] it has logged "Some packages were not
    installed".  [_cask] does the same with its own summary line. *)
Theorem batch_summary_lines (packages : list string)
    (defaults : gmap string pyval) (w : World) :
  (let r := _brew packages defaults w in
   let summary := "All brew packages have been installed" in
   (In summary (logged Info (events r)) <-> value r = Return true)
   /\ (value r = Return true -> logged Error (events r) = [])
   /\ (value r = Return false ->
       In "Some packages were not installed" (logged Error (events r))))
  /\ (let r := _cask packages defaults w in
      let summary := "All cask packages have been installed" in
      (In summary (logged Info (events r)) <-> value r = Return true)
      /\ (value r = Return true -> logged Error (events r) = [])
      /\ (value r = Return false ->
          In "Some packages were not installed" (logged Error (events r)))).
Proof.
  split.
  - apply (batch_logs brew_install_format brew_check_format
             "All brew packages have been installed" defaults packages w).
    intros pkg. discriminate.
  - apply (batch_logs cask_install_format cask_check_format
             "All cask packages have been installed" defaults packages w).
    intros pkg. discriminate.
Qed.
End BatchLogs.

(** ** [handle] on a host that starts every command *)

Section HandleTotal.
Context {H : Host}.



End HandleTotal.

(** ** The further properties at concrete inputs *)


Lemma install_reports_failure_witness :
  let failed := @_install example_host brew_install_format brew_check_format
                  "missing" brew_defaults 0%nat in
  let done := @_install example_host brew_install_format brew_check_format
                "wget" brew_defaults 0%nat in
  (value failed = Return false
   /\ (logged Error (events failed) <> []
       \/ logged Warning (events failed) <> []))
  /\ (value done = Return true
      /\ logged Error (events done) = [] /\ logged Warning (events done) = []).
Proof.
  intros failed done. split; (split; [reflexivity|]).
  - exact (proj1 (@install_reports_failure example_host brew_install_format
                    brew_check_format "missing" brew_defaults 0%nat) eq_refl).
  - exact (proj2 (@install_reports_failure example_host brew_install_format
                    brew_check_format "wget" brew_defaults 0%nat) eq_refl).
Defined.

Lemma batch_does_not_catch_witness :
  let e := KeyError "stdin" in
  let brewed := @_install example_host brew_install_format brew_check_format
                  "missing" ∅ 0%nat in
  let casked := @_install example_host cask_install_format cask_check_format
                  "missing" ∅ 0%nat in
  (value brewed = Raise e
   /\ @_brew example_host ["missing"; "wget"] ∅ 0%nat
      = Result (Raise e) (final brewed) (events brewed))
  /\ (value casked = Raise e
      /\ @_cask example_host ["missing"; "wget"] ∅ 0%nat
         = Result (Raise e) (final casked) (events casked)).
Proof.
  intros e brewed casked. split; (split; [reflexivity|]).
  - exact (proj1 (@batch_does_not_catch example_host "missing" ["wget"] ∅
                    0%nat e) eq_refl).
  - exact (proj2 (@batch_does_not_catch example_host "missing" ["wget"] ∅
                    0%nat e) eq_refl).
Defined.

Lemma batch_summary_lines_witness :
  let good := @_brew example_host ["wget"; "tap/jq --HEAD"] brew_defaults
                0%nat in
  let bad := @_cask example_host ["vlc"; "missing"] brew_defaults 0%nat in
  let broken := @_brew example_host ["wget"; nul_target] brew_defaults
                  0%nat in
  (value good = Return true
   /\ In "All brew packages have been installed" (logged Info (events good))
   /\ logged Error (events good) = [])
  /\ (value bad = Return false
      /\ ~ In "All cask packages have been installed"
             (logged Info (events bad))
      /\ In "Some packages were not installed" (logged Error (events bad)))
  /\ (value broken = Raise (ValueError "embedded null byte")
      /\ ~ In "All brew packages have been installed"
             (logged Info (events broken))).
Proof.
  intros good bad broken.
  destruct (@batch_summary_lines example_host ["wget"; "tap/jq --HEAD"]
              brew_defaults 0%nat) as [[Gs [Gt _]] _].
  destruct (@batch_summary_lines example_host ["vlc"; "missing"]
              brew_defaults 0%nat) as [_ [Bs [_ Bf]]].
  destruct (@batch_summary_lines example_host ["wget"; nul_target]
              brew_defaults 0%nat) as [[Xs _] _].
  split; [|split]; (split; [reflexivity|]).
  - split; [exact (proj2 Gs eq_refl) | exact (Gt eq_refl)].
  - split; [|exact (Bf eq_refl)].
    intros Hin. apply (proj1 Bs) in Hin. discriminate.
  - intros Hin. apply (proj1 Xs) in Hin. discriminate.
Defined.
